(** * Euclidean squared-distance matrices: euclidean_numpy, euclidean_numba1,
      euclidean_numba2 (topics/python-hpc/tutorials/euclidean-distance-matrix-numba.jit.ipynb)

    Numbers are modelled with exact integer arithmetic ([Z]); every identity
    proved below is a ring identity, so it holds over the reals as well.
    A two-dimensional NumPy array is a record carrying its shape and its rows.
    Functions return an [option]: in the plain Python/NumPy code
    ([euclidean_numpy] and the homework loops) [None] is a raised exception
    (IndexError past the end of an array, a shape or broadcast ValueError).
    The two jitted functions ([@numba.jit(nopython=True)]) do not check
    bounds: in their checked embedding [euclidean_numba1] and
    [euclidean_numba2], [None] marks the first access that leaves an array
    (the compiled code reads memory there instead of raising), and their
    results are the compiled code's results exactly when every access is in
    range.  Module [Unchecked] restates them with the unchecked reads of the
    compiled code, and module [Float64] restates two of the functions in
    binary64 floating point. *)

From Stdlib Require Import Bool ZArith List Lia Floats.
Import ListNotations.
Open Scope Z_scope.

(** ** Data model *)

(** A 2-D NumPy array of shape [(nrows, ncols)] with its rows. *)
Record ndarray := mk_ndarray {
  nrows : nat;
  ncols : nat;
  data : list (list Z)
}.

(** A well-formed array: [nrows] rows, each of length [ncols]. *)
Definition wf (a : ndarray) : Prop :=
  length (data a) = nrows a /\ Forall (fun r => length r = ncols a) (data a).

(** Option monad: a raised exception (or, in the checked embedding of the
    jitted functions, an out-of-range access) aborts the whole function. *)
Definition bind {A B} (m : option A) (f : A -> option B) : option B :=
  match m with Some a => f a | None => None end.
Notation "'let*' x ':=' m 'in' f" := (bind m (fun x => f))
  (at level 200, x name, m at level 100, f at level 200).

(** [a[i]]: row [i] of a 2-D array; [None] past the end (an IndexError in
    Python, an unchecked out-of-range access in the jitted code). *)
Definition getrow (a : ndarray) (i : nat) : option (list Z) :=
  nth_error (data a) i.

(** [r[k]]: element [k] of a 1-D row; [None] past the end, as for [getrow]. *)
Definition getitem (r : list Z) (k : nat) : option Z := nth_error r k.

(** [out[i][j]] read back from a result matrix. *)
Definition get2 (a : ndarray) (i j : nat) : option Z :=
  let* r := getrow a i in getitem r j.

(** [for v in l: body(v)] collecting results; the first [None] aborts. *)
Fixpoint mapM {A B} (f : A -> option B) (l : list A) : option (list B) :=
  match l with
  | [] => Some []
  | a :: l' =>
      let* b := f a in
      let* bs := mapM f l' in
      Some (b :: bs)
  end.

(** [arr.sum()] for a 1-D array. *)
Definition sumZ (l : list Z) : Z := fold_right Z.add 0 l.

(** ** euclidean_numba1 *)

(** The innermost loop of [euclidean_numba1]:
    [for k in prange(num_feat): r += (x[i][k] - y[j][k])**2]
    (run here in its sequential order). *)
Fixpoint feat_loop (x y : ndarray) (i j : nat) (ks : list nat) (r : Z) : option Z :=
  match ks with
  | [] => Some r
  | k :: ks' =>
      let* xi := getrow x i in
      let* xik := getitem xi k in
      let* yj := getrow y j in
      let* yjk := getitem yj k in
      feat_loop x y i j ks' (r + (xik - yjk) ^ 2)
  end.

(** [euclidean_numba1(x, y)]:
<<
    num_samples, num_feat = x.shape
    dist_matrix = np.zeros((num_samples, num_samples))
    for i in range(num_samples):
        for j in range(num_samples):
            r = 0.0
            for k in numba.prange(num_feat):
                r += (x[i][k] - y[j][k])**2
            dist_matrix[i][j] = r
    return dist_matrix
>>
    Every cell of the zero-initialised [(num_samples, num_samples)] matrix is
    written exactly once, in row-major order, so the result is the matrix of
    the cell values collected row by row.  The function is compiled in
    nopython mode without bounds checks: it never raises, and [None] here
    marks an access [x[i][k]] or [y[j][k]] out of range, which the compiled
    code performs as an unchecked read (see [Unchecked.euclidean_numba1]). *)
Definition euclidean_numba1 (x y : ndarray) : option ndarray :=
  let num_samples := nrows x in
  let num_feat := ncols x in
  let* rows :=
    mapM (fun i =>
            mapM (fun j => feat_loop x y i j (seq 0 num_feat) 0)
                 (seq 0 num_samples))
         (seq 0 num_samples) in
  Some (mk_ndarray num_samples num_samples rows).

(** ** euclidean_numba2 *)

(** [a - b] on two 1-D arrays, with NumPy broadcasting: equal lengths
    subtract element-wise, a length-1 operand is broadcast, any other
    combination raises (operands could not be broadcast together). *)
Definition sub_bcast (a b : list Z) : option (list Z) :=
  if Nat.eqb (length a) (length b) then
    Some (map (fun '(u, v) => u - v) (combine a b))
  else match a, b with
  | [u], _ => Some (map (fun v => u - v) b)
  | _, [v] => Some (map (fun u => u - v) a)
  | _, _ => None
  end.

(** [((x[i] - y[j])**2).sum()] *)
Definition cell2 (x y : ndarray) (i j : nat) : option Z :=
  let* xi := getrow x i in
  let* yj := getrow y j in
  let* d := sub_bcast xi yj in
  Some (sumZ (map (fun v => v ^ 2) d)).

(** [euclidean_numba2(x, y)]:
<<
    num_samples, num_feat = x.shape
    dist_matrix = np.zeros((num_samples, num_samples))
    for i in range(num_samples):
        for j in numba.prange(num_samples):
            dist_matrix[i][j] = ((x[i] - y[j])**2).sum()
    return dist_matrix
>>
    Compiled in nopython mode without bounds checks.  [None] arises in two
    ways: a row [y[j]] past the end of [y], which the compiled code takes as
    an unchecked view of the memory after [y] (see
    [Unchecked.euclidean_numba2]), and the broadcast of [x[i] - y[j]] failing,
    which is a genuine ValueError. *)
Definition euclidean_numba2 (x y : ndarray) : option ndarray :=
  let num_samples := nrows x in
  let* rows :=
    mapM (fun i => mapM (fun j => cell2 x y i j) (seq 0 num_samples))
         (seq 0 num_samples) in
  Some (mk_ndarray num_samples num_samples rows).

(** ** euclidean_numpy *)

(** [np.einsum('ij,ij->i', a, a)]: the squared norm of every row. *)
Definition einsum_rows (a : ndarray) : list Z :=
  map (fun r => sumZ (map (fun v => v * v) r)) (data a).

(** Inner product of two rows of equal length. *)
Definition dot_row (u v : list Z) : Z :=
  sumZ (map (fun '(p, q) => p * q) (combine u v)).

(** [np.dot(x, y.T)]: shapes [(N, D)] and [(D', M)] must agree on [D = D']. *)
Definition dot_T (x y : ndarray) : option (list (list Z)) :=
  if Nat.eqb (ncols x) (ncols y) then
    Some (map (fun xr => map (fun yr => dot_row xr yr) (data y)) (data x))
  else None.

(** [euclidean_numpy(x, y)]:
<<
    x2 = np.einsum('ij,ij->i', x, x)[:, np.newaxis]
    y2 = np.einsum('ij,ij->i', y, y)[:, np.newaxis].T
    xy = np.dot(x, y.T)
    return np.abs(x2 + y2 - 2. * xy)
>>
    [x2] has shape [(N, 1)], [y2] shape [(1, M)], [xy] shape [(N, M)]; the
    broadcast sum has shape [(N, M)]. *)
Definition euclidean_numpy (x y : ndarray) : option ndarray :=
  let x2 := einsum_rows x in
  let y2 := einsum_rows y in
  let* xy := dot_T x y in
  Some (mk_ndarray (nrows x) (nrows y)
          (map (fun '(x2i, xyi) =>
                  map (fun '(y2j, xyij) => Z.abs (x2i + y2j - 2 * xyij))
                      (combine y2 xyi))
               (combine x2 xy))).

(** The first [n] rows of an array ([y[:n]]). *)
Definition truncate (a : ndarray) (n : nat) : ndarray :=
  mk_ndarray (Nat.min n (nrows a)) (ncols a) (firstn n (data a)).

(** The squared Euclidean distance between rows [i] of [x] and [j] of [y],
    written as in the specification: [Σ_k (X[i][k] − Y[j][k])²], [k < D]. *)
Definition sq_dist_spec (x y : ndarray) (D i j : nat) : Z :=
  sumZ (map (fun k => (nth k (nth i (data x) []) 0 - nth k (nth j (data y) []) 0) ^ 2)
            (seq 0 D)).

(** Reading a cell back from a matrix built as a table of [f i j]. *)
Definition table (N M : nat) (f : nat -> nat -> Z) : list (list Z) :=
  map (fun i => map (fun j => f i j) (seq 0 M)) (seq 0 N).

(** Whether the accesses [x[i][k]] and [y[j][k]] are both in range. *)
Definition acc_ok (x y : ndarray) (i j k : nat) : bool :=
  match getrow x i, getrow y j with
  | Some xi, Some yj => Nat.ltb k (length xi) && Nat.ltb k (length yj)
  | _, _ => false
  end.

(** [Σ (u - v)²] over paired entries of two rows. *)
Definition sq_dist_row (u v : list Z) : Z :=
  sumZ (map (fun '(p, q) => (p - q) ^ 2) (combine u v)).

(** Every entry of an array is non-negative. *)
Definition nonneg (a : ndarray) : Prop := Forall (Forall (fun v => 0 <= v)) (data a).

(** ** Homework variants (markdown cell of the notebook) *)

(** [np.zeros((n, m))] *)
Definition np_zeros (n m : nat) : list (list Z) := repeat (repeat 0 m) n.

(** [l[n] = v] on a list: IndexError past the end. *)
Fixpoint list_set {A} (l : list A) (n : nat) (v : A) : option (list A) :=
  match l, n with
  | [], _ => None
  | _ :: l', O => Some (v :: l')
  | a :: l', S n' => let* l'' := list_set l' n' v in Some (a :: l'')
  end.

(** [m[i][j] = v] on a 2-D array: [m[i]] is a view of row [i] (IndexError
    past the end), then its element [j] is assigned (IndexError past the end). *)
Definition setitem2 (m : list (list Z)) (i j : nat) (v : Z) : option (list (list Z)) :=
  let* row := nth_error m i in
  let* row' := list_set row j v in
  list_set m i row'.

(** [for j, yj in enumerate(ys, j): diff = xi - yj; m[i][j] = np.dot(diff, diff)] *)
Fixpoint loop2_inner (xi : list Z) (i : nat) (ys : list (list Z)) (j : nat)
    (m : list (list Z)) : option (list (list Z)) :=
  match ys with
  | [] => Some m
  | yj :: ys' =>
      let* diff := sub_bcast xi yj in
      let* m' := setitem2 m i j (dot_row diff diff) in
      loop2_inner xi i ys' (S j) m'
  end.

(** [for i, xi in enumerate(xs, i): <inner loop over y>] *)
Fixpoint loop2_outer (xs : list (list Z)) (i : nat) (ys : list (list Z))
    (m : list (list Z)) : option (list (list Z)) :=
  match xs with
  | [] => Some m
  | xi :: xs' =>
      let* m' := loop2_inner xi i ys 0 m in
      loop2_outer xs' (S i) ys m'
  end.

(** [euclidean_loop2(x, y)]:
<<
    num_samples = x.shape[0]
    dist_matrix = np.zeros((num_samples, num_samples))
    for i, xi in enumerate(x):
        for j, yj in enumerate(y):
            diff = xi - yj
            dist_matrix[i][j] = np.dot(diff, diff)
    return dist_matrix
>> *)
Definition euclidean_loop2 (x y : ndarray) : option ndarray :=
  let num_samples := nrows x in
  let* m := loop2_outer (data x) 0 (data y) (np_zeros num_samples num_samples) in
  Some (mk_ndarray num_samples num_samples m).

(** [euclidean_loop3(x, y)]:
<<
    num_samples = x.shape[0]
    dist_matrix = [[np.dot(xi - yj, xi - yj) for xi in x] for yj in y]
    return np.array(dist_matrix)
>>
    The nested list [dist_matrix] is returned; [np.array] turns it into an
    array with one row per row of [y]. *)
Definition euclidean_loop3 (x y : ndarray) : option (list (list Z)) :=
  mapM (fun yj =>
          mapM (fun xi =>
                  let* d1 := sub_bcast xi yj in
                  let* d2 := sub_bcast xi yj in
                  Some (dot_row d1 d2))
               (data x))
       (data y).

(** ** Unchecked indexing in the jitted functions *)

(** [euclidean_numba1] and [euclidean_numba2] are compiled with
    [@numba.jit(nopython=True)], which does not check array bounds.  On the
    C-contiguous arrays of the notebook, [a[j]] is the view of the [ncols a]
    elements that start at flat offset [j * ncols a], and [a[j][k]] reads the
    element at flat offset [j * ncols a + k].  An offset inside the buffer
    reads the buffer (a later row when [k >= ncols a]); an offset past its end
    reads whatever memory follows the buffer, given here by [mem].  No
    IndexError is raised. *)
Module Unchecked.

(** The buffer of a C-contiguous array, row after row. *)
Definition flat (a : ndarray) : list Z := concat (data a).

(** The element at flat offset [off], or the memory after the buffer. *)
Definition read (mem : nat -> Z) (a : ndarray) (off : nat) : Z :=
  match nth_error (flat a) off with Some v => v | None => mem off end.

(** [a[j][k]] without bounds checks. *)
Definition getitem2 (mem : nat -> Z) (a : ndarray) (j k : nat) : Z :=
  read mem a (j * ncols a + k).

(** The view [a[j]] without bounds checks: [ncols a] elements. *)
Definition getrow (mem : nat -> Z) (a : ndarray) (j : nat) : list Z :=
  map (fun k => getitem2 mem a j k) (seq 0 (ncols a)).

(** [for k in prange(num_feat): r += (x[i][k] - y[j][k])**2] *)
Fixpoint feat_loop (memx memy : nat -> Z) (x y : ndarray) (i j : nat)
    (ks : list nat) (r : Z) : Z :=
  match ks with
  | [] => r
  | k :: ks' =>
      feat_loop memx memy x y i j ks'
        (r + (getitem2 memx x i k - getitem2 memy y j k) ^ 2)
  end.

(** [euclidean_numba1(x, y)] with unchecked reads: it always returns. *)
Definition euclidean_numba1 (memx memy : nat -> Z) (x y : ndarray) : ndarray :=
  let num_samples := nrows x in
  let num_feat := ncols x in
  mk_ndarray num_samples num_samples
    (map (fun i => map (fun j => feat_loop memx memy x y i j (seq 0 num_feat) 0)
                       (seq 0 num_samples))
         (seq 0 num_samples)).

(** [((x[i] - y[j])**2).sum()] on unchecked views; the broadcast of
    [x[i] - y[j]] still raises when the two lengths do not fit. *)
Definition cell2 (memx memy : nat -> Z) (x y : ndarray) (i j : nat) : option Z :=
  let* d := sub_bcast (getrow memx x i) (getrow memy y j) in
  Some (sumZ (map (fun v => v ^ 2) d)).

(** [euclidean_numba2(x, y)] with unchecked views. *)
Definition euclidean_numba2 (memx memy : nat -> Z) (x y : ndarray) : option ndarray :=
  let num_samples := nrows x in
  let* rows :=
    mapM (fun i => mapM (fun j => cell2 memx memy x y i j) (seq 0 num_samples))
         (seq 0 num_samples) in
  Some (mk_ndarray num_samples num_samples rows).

End Unchecked.

(** ** Floating point *)

(** [euclidean_numpy] and [euclidean_numba1] in IEEE-754 binary64 (NumPy's
    [float64]), on arrays given by their rows, with every access in range.
    Sums run from [0.] in index order.  NumPy may order the sums of
    [np.einsum] and [np.dot] differently; on arrays with one feature, the
    case used below, each of these sums has a single term, so the order does
    not matter there. *)
Module Float64.
Local Open Scope float_scope.

(** [np.einsum('ij,ij->i', a, a)] *)
Definition einsum_rows (a : list (list float)) : list float :=
  map (fun r => fold_left (fun acc v => acc + v * v) r 0) a.

(** Inner product of two rows. *)
Definition dot_row (u v : list float) : float :=
  fold_left (fun acc '(p, q) => acc + p * q) (combine u v) 0.

(** [np.abs(x2 + y2 - 2. * xy)] with [xy = np.dot(x, y.T)]. *)
Definition euclidean_numpy (x y : list (list float)) : list (list float) :=
  let x2 := einsum_rows x in
  let y2 := einsum_rows y in
  let xy := map (fun xr => map (fun yr => dot_row xr yr) y) x in
  map (fun '(x2i, xyi) =>
         map (fun '(y2j, xyij) => abs (x2i + y2j - 2 * xyij)) (combine y2 xyi))
      (combine x2 xy).

(** The triple loop: [r = 0.0; for k: r += (x[i][k] - y[j][k])**2], where
    Numba computes [d**2] as [d * d]. *)
Definition euclidean_numba1 (x y : list (list float)) : list (list float) :=
  let num_samples := length x in
  let num_feat := length (nth 0 x []) in
  map (fun i =>
         map (fun j =>
                fold_left (fun r k =>
                             let d := nth k (nth i x []) 0 - nth k (nth j y []) 0 in
                             r + d * d)
                          (seq 0 num_feat) 0)
             (seq 0 num_samples))
      (seq 0 num_samples).

End Float64.

(** Concrete inputs from the specification's scenarios. *)
Definition X00_34 : ndarray := mk_ndarray 2 2 [[0; 0]; [3; 4]].
Definition X123 : ndarray := mk_ndarray 1 3 [[1; 2; 3]].
Definition Y456 : ndarray := mk_ndarray 1 3 [[4; 5; 6]].

(** Further concrete inputs: an empty [(0, 5)] array and a [(3, 5)] one,
    arrays of different feature dimension or different row count, and
    arrays with no features. *)
Definition X0_5 : ndarray := mk_ndarray 0 5 [].
Definition Y3_5 : ndarray :=
  mk_ndarray 3 5 [[0; 0; 0; 0; 0]; [1; 1; 1; 1; 1]; [2; 2; 2; 2; 2]].
Definition X1_1 : ndarray := mk_ndarray 1 1 [[1]].
Definition Y1_2 : ndarray := mk_ndarray 1 2 [[1; 2]].
Definition X1r : ndarray := mk_ndarray 1 1 [[0]].
Definition Y2r : ndarray := mk_ndarray 2 1 [[0]; [1]].
Definition Y3_2 : ndarray := mk_ndarray 3 2 [[0; 0]; [3; 4]; [1; 1]].
Definition X2_0 : ndarray := mk_ndarray 2 0 [[]; []].
Definition Y1_0 : ndarray := mk_ndarray 1 0 [[]].

(** One feature of large magnitude, exactly and in [float64]: the rows of
    [Xbig] and [Ybig] are [10^8 + 1] and [10^8], both exact in binary64. *)
Definition Xbig : ndarray := mk_ndarray 1 1 [[100000001]].
Definition Ybig : ndarray := mk_ndarray 1 1 [[100000000]].
Definition XbigF : list (list float) := [[100000001%float]].
Definition YbigF : list (list float) := [[100000000%float]].

Example scenario_00_34 :
  euclidean_numba1 X00_34 X00_34 = Some (mk_ndarray 2 2 [[0; 25]; [25; 0]]) /\
  euclidean_numba2 X00_34 X00_34 = Some (mk_ndarray 2 2 [[0; 25]; [25; 0]]) /\
  euclidean_numpy X00_34 X00_34 = Some (mk_ndarray 2 2 [[0; 25]; [25; 0]]).
Proof. repeat split; reflexivity. Qed.

Example scenario_123_456 :
  euclidean_numba1 X123 Y456 = Some (mk_ndarray 1 1 [[27]]) /\
  euclidean_numpy X123 Y456 = Some (mk_ndarray 1 1 [[27]]).
Proof. split; reflexivity. Qed.

(** ** Loop and indexing lemmas *)

Section MapM.
Context {A B : Type}.

Lemma mapM_Some_map (f : A -> option B) (g : A -> B) (l : list A) :
  (forall a, In a l -> f a = Some (g a)) -> mapM f l = Some (map g l).
Proof.
  induction l as [|a l IH]; intros Hf; simpl; [reflexivity|].
  rewrite (Hf a (or_introl eq_refl)); simpl.
  rewrite IH; [reflexivity|]. intros b Hb; apply Hf; now right.
Qed.

Lemma mapM_None (f : A -> option B) (l : list A) :
  mapM f l = None <-> exists a, In a l /\ f a = None.
Proof.
  induction l as [|a l IH]; simpl.
  - split; [discriminate | intros (? & [] & _)].
  - destruct (f a) as [b|] eqn:Ha; simpl.
    + destruct (mapM f l) as [bs|]; simpl.
      * split; [discriminate|]. intros (a' & [<-|Hin] & Hn); [congruence|].
        assert (H : Some bs = None) by (apply IH; eauto). discriminate.
      * split; [|reflexivity]. intros _.
        destruct (proj1 IH eq_refl) as (a' & Hin & Hn); eauto.
    + split; [intros _; eauto | reflexivity].
Qed.

Lemma mapM_ext_in (f g : A -> option B) (l : list A) :
  (forall a, In a l -> f a = g a) -> mapM f l = mapM g l.
Proof.
  induction l as [|a l IH]; intros Hfg; simpl; [reflexivity|].
  rewrite (Hfg a (or_introl eq_refl)), IH; [reflexivity|].
  intros b Hb; apply Hfg; now right.
Qed.

Lemma mapM_Some_in (f : A -> option B) (l : list A) (bs : list B) :
  mapM f l = Some bs -> forall b, In b bs -> exists a, In a l /\ f a = Some b.
Proof.
  revert bs; induction l as [|a l IH]; intros bs H b Hb; simpl in H.
  - injection H as <-; destruct Hb.
  - destruct (f a) as [c|] eqn:Ha; simpl in H; [|discriminate].
    destruct (mapM f l) as [cs|] eqn:Hl; simpl in H; [|discriminate].
    injection H as <-. destruct Hb as [Hcb|Hb].
    + exists a; split; [now left | congruence].
    + destruct (IH cs eq_refl b Hb) as (a' & ? & ?); exists a'; simpl; auto.
Qed.

End MapM.

Lemma In_seq0 (n k : nat) : In k (seq 0 n) <-> (k < n)%nat.
Proof. rewrite in_seq; lia. Qed.

Lemma getrow_wf (a : ndarray) (i : nat) :
  wf a -> (i < nrows a)%nat ->
  exists r, getrow a i = Some r /\ length r = ncols a.
Proof.
  intros [Hlen Hrows] Hi. unfold getrow.
  destruct (nth_error (data a) i) as [r|] eqn:Hr.
  - exists r; split; [reflexivity|].
    rewrite Forall_forall in Hrows. apply Hrows, (nth_error_In _ _ Hr).
  - apply nth_error_None in Hr; lia.
Qed.

Lemma getrow_None (a : ndarray) (i : nat) :
  wf a -> getrow a i = None <-> (nrows a <= i)%nat.
Proof. intros [Hlen _]. unfold getrow. rewrite nth_error_None; lia. Qed.

Lemma feat_loop_Some (x y : ndarray) (i j : nat) xi yj (ks : list nat) (r : Z) :
  getrow x i = Some xi -> getrow y j = Some yj ->
  (forall k, In k ks -> k < length xi /\ k < length yj)%nat ->
  feat_loop x y i j ks r =
  Some (r + sumZ (map (fun k => (nth k xi 0 - nth k yj 0) ^ 2) ks)).
Proof.
  intros Hx Hy. revert r. unfold sumZ.
  induction ks as [|k ks IH]; intros r Hk; cbn [feat_loop map fold_right].
  - f_equal; ring.
  - rewrite Hx, Hy; cbn [bind]. unfold getitem.
    destruct (Hk k (or_introl eq_refl)) as [Hkx Hky].
    rewrite (nth_error_nth' xi 0 Hkx), (nth_error_nth' yj 0 Hky); cbn [bind].
    rewrite IH; [f_equal; ring|]. intros k' Hk'; apply Hk; now right.
Qed.

Lemma feat_loop_cons_bad (x y : ndarray) (i j k : nat) (ks : list nat) (r : Z) :
  acc_ok x y i j k = false -> feat_loop x y i j (k :: ks) r = None.
Proof.
  unfold acc_ok; simpl; unfold getitem.
  destruct (getrow x i) as [xi|]; simpl; [|reflexivity].
  destruct (nth_error xi k) as [xik|] eqn:Hxk; simpl;
    destruct (getrow y j) as [yj|]; simpl; try reflexivity.
  destruct (nth_error yj k) as [yjk|] eqn:Hyk; simpl; [|reflexivity].
  intros H. apply andb_false_iff in H.
  rewrite !Nat.ltb_ge in H. rewrite <- !nth_error_None in H.
  destruct H; congruence.
Qed.

Lemma feat_loop_cons_ok (x y : ndarray) (i j k : nat) (ks : list nat) (r : Z) :
  acc_ok x y i j k = true ->
  exists r', feat_loop x y i j (k :: ks) r = feat_loop x y i j ks r'.
Proof.
  unfold acc_ok; simpl; unfold getitem.
  destruct (getrow x i) as [xi|]; simpl; [|discriminate].
  destruct (getrow y j) as [yj|]; simpl; [|discriminate].
  intros H; apply andb_true_iff in H; rewrite !Nat.ltb_lt in H.
  destruct H as [Hx Hy].
  rewrite (nth_error_nth' xi 0 Hx), (nth_error_nth' yj 0 Hy); simpl; eauto.
Qed.

Lemma feat_loop_None (x y : ndarray) (i j : nat) (ks : list nat) (r : Z) :
  feat_loop x y i j ks r = None <-> exists k, In k ks /\ acc_ok x y i j k = false.
Proof.
  revert r; induction ks as [|k ks IH]; intros r.
  - simpl; split; [discriminate | intros (? & [] & _)].
  - destruct (acc_ok x y i j k) eqn:Hk.
    + destruct (feat_loop_cons_ok x y i j k ks r Hk) as [r' ->].
      rewrite IH. split.
      * intros (k' & ? & ?); exists k'; simpl; auto.
      * intros (k' & [<-|Hin] & Hb); [congruence|eauto].
    + rewrite (feat_loop_cons_bad _ _ _ _ _ _ _ Hk).
      split; [intros _; exists k; simpl; auto | reflexivity].
Qed.

Lemma feat_loop_nonneg (x y : ndarray) (i j : nat) (ks : list nat) (r v : Z) :
  0 <= r -> feat_loop x y i j ks r = Some v -> 0 <= v.
Proof.
  revert r; induction ks as [|k ks IH]; intros r Hr H; simpl in H.
  - congruence.
  - unfold getitem in H.
    destruct (getrow x i); simpl in H; [|discriminate].
    destruct (nth_error l k); simpl in H; [|discriminate].
    destruct (getrow y j); simpl in H; [|discriminate].
    destruct (nth_error l0 k); simpl in H; [|discriminate].
    eapply IH; [|exact H]. pose proof (Z.pow_even_nonneg (z - z0) 2). nia.
Qed.

Lemma get2_table (N M : nat) (f : nat -> nat -> Z) (n m : nat) (i j : nat) :
  get2 (mk_ndarray n m (table N M f)) i j =
  if Nat.ltb i N && Nat.ltb j M then Some (f i j) else None.
Proof.
  unfold get2, getrow, getitem, table; simpl.
  rewrite nth_error_map, nth_error_seq.
  destruct (Nat.ltb i N); simpl; [|reflexivity].
  rewrite nth_error_map, nth_error_seq.
  destruct (Nat.ltb j M); reflexivity.
Qed.

Lemma wf_table (N M : nat) (f : nat -> nat -> Z) :
  wf (mk_ndarray N M (table N M f)).
Proof.
  unfold wf, table; simpl; split.
  - now rewrite length_map, length_seq.
  - apply Forall_forall. intros r Hr. apply in_map_iff in Hr.
    destruct Hr as (i & <- & _). now rewrite length_map, length_seq.
Qed.

Lemma acc_ok_false_wf (x y : ndarray) (i j k : nat) :
  wf x -> wf y -> (i < nrows x)%nat -> (k < ncols x)%nat ->
  acc_ok x y i j k = false <-> (nrows y <= j \/ ncols y <= k)%nat.
Proof.
  intros Hx Hy Hi Hk. unfold acc_ok.
  destruct (getrow_wf x i Hx Hi) as (xi & -> & Hxi).
  destruct (getrow y j) as [yj|] eqn:Hyj.
  - assert (Hj : (j < nrows y)%nat).
    { destruct (Nat.lt_ge_cases j (nrows y)) as [|Hge]; [assumption|].
      apply (getrow_None y j Hy) in Hge. congruence. }
    assert (Hlen : length yj = ncols y).
    { destruct (getrow_wf y j Hy Hj) as (yj' & Hyj' & Hl). congruence. }
    rewrite andb_false_iff, !Nat.ltb_ge. lia.
  - apply (getrow_None y j Hy) in Hyj. split; [lia | reflexivity].
Qed.

(** When [euclidean_numba1] returns [None]: some access [y[j][k]] with
    [i, j < rows(x)] and [k < cols(x)] is out of range. *)
Lemma numba1_None (x y : ndarray) :
  wf x -> wf y ->
  euclidean_numba1 x y = None <->
  (0 < nrows x /\ 0 < ncols x /\ (nrows y < nrows x \/ ncols y < ncols x))%nat.
Proof.
  intros Hx Hy. unfold euclidean_numba1.
  assert (Hb : forall o : option (list (list Z)),
             bind o (fun rows => Some (mk_ndarray (nrows x) (nrows x) rows)) = None
             <-> o = None) by (intros [o|]; simpl; split; congruence).
  rewrite Hb, mapM_None. split.
  - intros (i & Hi & Hrow). apply mapM_None in Hrow.
    destruct Hrow as (j & Hj & Hcell). apply feat_loop_None in Hcell.
    destruct Hcell as (k & Hk & Hacc). apply In_seq0 in Hi, Hj, Hk.
    apply (acc_ok_false_wf x y i j k Hx Hy Hi Hk) in Hacc. lia.
  - intros (HN & HD & Hcase).
    assert (Hex : exists j k, (j < nrows x)%nat /\ (k < ncols x)%nat /\
                              (nrows y <= j \/ ncols y <= k)%nat).
    { destruct (Nat.lt_ge_cases (nrows y) (nrows x)).
      - exists (nrows y), 0%nat; lia.
      - exists 0%nat, (ncols y); lia. }
    destruct Hex as (j & k & Hj & Hk & Hjk).
    exists 0%nat; split; [apply In_seq0; exact HN|].
    apply mapM_None. exists j; split; [apply In_seq0; exact Hj|].
    apply feat_loop_None. exists k; split; [apply In_seq0; exact Hk|].
    apply (acc_ok_false_wf x y 0 j k Hx Hy HN Hk). exact Hjk.
Qed.

(** On inputs where every access is in range, [euclidean_numba1] returns the
    [(N, N)] table of squared distances, [N = rows(x)]. *)
Lemma numba1_Some (x y : ndarray) :
  wf x -> wf y -> (nrows x <= nrows y)%nat -> (ncols x <= ncols y)%nat ->
  euclidean_numba1 x y =
  Some (mk_ndarray (nrows x) (nrows x)
          (table (nrows x) (nrows x) (sq_dist_spec x y (ncols x)))).
Proof.
  intros Hx Hy HM HD. unfold euclidean_numba1, table.
  rewrite (mapM_Some_map _ (fun i => map (fun j => sq_dist_spec x y (ncols x) i j)
                                         (seq 0 (nrows x)))); [reflexivity|].
  intros i Hi; apply In_seq0 in Hi.
  apply mapM_Some_map. intros j Hj; apply In_seq0 in Hj.
  destruct (getrow_wf x i Hx Hi) as (xi & Hxi & Hlx).
  destruct (getrow_wf y j Hy ltac:(lia)) as (yj & Hyj & Hly).
  rewrite (feat_loop_Some x y i j xi yj _ _ Hxi Hyj).
  - unfold sq_dist_spec, getrow in *.
    rewrite (nth_error_nth _ _ _ Hxi), (nth_error_nth _ _ _ Hyj).
    f_equal; ring.
  - intros k Hk; apply In_seq0 in Hk; lia.
Qed.

(** ** Algebraic expansion *)

Lemma sq_dist_row_nonneg (u v : list Z) : 0 <= sq_dist_row u v.
Proof.
  unfold sq_dist_row, sumZ. revert v.
  induction u as [|a u IH]; intros [|b v]; cbn [combine map fold_right]; try lia.
  specialize (IH v). pose proof (Z.pow_even_nonneg (a - b) 2). nia.
Qed.

Lemma sq_dist_spec_row (u v : list Z) (D : nat) :
  length u = D -> length v = D ->
  sumZ (map (fun k => (nth k u 0 - nth k v 0) ^ 2) (seq 0 D)) = sq_dist_row u v.
Proof.
  unfold sq_dist_row, sumZ. revert v D.
  induction u as [|a u IH]; intros [|b v] D Hu Hv; simpl in Hu, Hv; subst D;
    try discriminate; [reflexivity|].
  cbn [seq map fold_right combine nth].
  rewrite <- seq_shift, map_map. cbn [nth].
  rewrite (IH v (length u) eq_refl ltac:(lia)). reflexivity.
Qed.

Lemma expand_row (u v : list Z) :
  length u = length v ->
  sumZ (map (fun w => w * w) u) + sumZ (map (fun w => w * w) v) - 2 * dot_row u v
  = sq_dist_row u v.
Proof.
  unfold sq_dist_row, dot_row, sumZ. revert v.
  induction u as [|a u IH]; intros [|b v] H; simpl in H; try discriminate;
    cbn [combine map fold_right]; [reflexivity|].
  rewrite <- (IH v ltac:(lia)). ring.
Qed.

Lemma combine_map_same {A B C} (f : A -> B) (g : A -> C) (l : list A) :
  combine (map f l) (map g l) = map (fun a => (f a, g a)) l.
Proof. induction l as [|a l IH]; simpl; [reflexivity | now rewrite IH]. Qed.

Lemma map_as_table {A B} (f : A -> B) (l : list A) (d : A) :
  map f l = map (fun i => f (nth i l d)) (seq 0 (length l)).
Proof.
  induction l as [|a l IH]; [reflexivity|].
  cbn [length seq map nth]. rewrite <- seq_shift, map_map, IH. reflexivity.
Qed.

(** [euclidean_numpy] when the feature dimensions agree. *)
Lemma numpy_Some (x y : ndarray) :
  ncols x = ncols y ->
  euclidean_numpy x y =
  Some (mk_ndarray (nrows x) (nrows y)
          (map (fun xr => map (fun yr =>
                  Z.abs (sumZ (map (fun w => w * w) xr) + sumZ (map (fun w => w * w) yr)
                         - 2 * dot_row xr yr)) (data y)) (data x))).
Proof.
  intros HD. unfold euclidean_numpy, dot_T, einsum_rows.
  rewrite HD, Nat.eqb_refl; simpl.
  rewrite combine_map_same, map_map. do 2 f_equal.
  apply map_ext; intros xr.
  rewrite combine_map_same, map_map. reflexivity.
Qed.

(** [euclidean_numpy] raises exactly when [np.dot(x, y.T)] does. *)
Lemma numpy_None (x y : ndarray) :
  euclidean_numpy x y = None <-> ncols x <> ncols y.
Proof.
  unfold euclidean_numpy, dot_T.
  destruct (Nat.eqb (ncols x) (ncols y)) eqn:E; simpl.
  - apply Nat.eqb_eq in E. split; congruence.
  - apply Nat.eqb_neq in E. tauto.
Qed.

(** The entries of [euclidean_numpy] on well-formed inputs of equal [D] are
    the squared distances of the rows. *)
Lemma numpy_rows (x y : ndarray) :
  wf x -> wf y -> ncols x = ncols y ->
  euclidean_numpy x y =
  Some (mk_ndarray (nrows x) (nrows y)
          (map (fun xr => map (fun yr => sq_dist_row xr yr) (data y)) (data x))).
Proof.
  intros [_ Hx] [_ Hy] HD. rewrite (numpy_Some x y HD). do 2 f_equal.
  apply map_ext_in; intros xr Hxr. apply map_ext_in; intros yr Hyr.
  rewrite Forall_forall in Hx, Hy.
  rewrite expand_row by (rewrite (Hx xr Hxr), (Hy yr Hyr); exact HD).
  apply Z.abs_eq, sq_dist_row_nonneg.
Qed.

(** ** euclidean_numba2 lemmas *)

Lemma mapM_length {A B} (f : A -> option B) (l : list A) (bs : list B) :
  mapM f l = Some bs -> length bs = length l.
Proof.
  revert bs; induction l as [|a l IH]; intros bs H; simpl in H.
  - now injection H as <-.
  - destruct (f a); simpl in H; [|discriminate].
    destruct (mapM f l) as [cs|]; simpl in H; [|discriminate].
    injection H as <-. simpl. f_equal. now apply IH.
Qed.

Lemma sub_bcast_same (u v : list Z) :
  length u = length v ->
  sub_bcast u v = Some (map (fun '(p, q) => p - q) (combine u v)).
Proof. intros H. unfold sub_bcast. now rewrite H, Nat.eqb_refl. Qed.

Lemma cell2_Some (x y : ndarray) (i j : nat) :
  wf x -> wf y -> ncols x = ncols y -> (i < nrows x)%nat -> (j < nrows y)%nat ->
  cell2 x y i j = Some (sq_dist_spec x y (ncols x) i j).
Proof.
  intros Hx Hy HD Hi Hj.
  destruct (getrow_wf x i Hx Hi) as (xi & Hxi & Hlx).
  destruct (getrow_wf y j Hy Hj) as (yj & Hyj & Hly).
  unfold cell2. rewrite Hxi, Hyj. cbn [bind].
  rewrite sub_bcast_same by congruence. cbn [bind].
  unfold sq_dist_spec, getrow in *.
  rewrite (nth_error_nth _ _ _ Hxi), (nth_error_nth _ _ _ Hyj).
  rewrite (sq_dist_spec_row xi yj (ncols x)) by congruence.
  unfold sq_dist_row. rewrite map_map. do 2 f_equal.
  apply map_ext; intros [p q]; reflexivity.
Qed.


Lemma numba2_Some (x y : ndarray) :
  wf x -> wf y -> (nrows x <= nrows y)%nat -> ncols x = ncols y ->
  euclidean_numba2 x y =
  Some (mk_ndarray (nrows x) (nrows x)
          (table (nrows x) (nrows x) (sq_dist_spec x y (ncols x)))).
Proof.
  intros Hx Hy HM HD. unfold euclidean_numba2, table.
  rewrite (mapM_Some_map _ (fun i => map (fun j => sq_dist_spec x y (ncols x) i j)
                                         (seq 0 (nrows x)))); [reflexivity|].
  intros i Hi; apply In_seq0 in Hi.
  apply mapM_Some_map. intros j Hj; apply In_seq0 in Hj.
  apply cell2_Some; auto; lia.
Qed.


(** Both loop variants read [y] only through [y[j]] with [j < rows(x)]. *)
Lemma feat_loop_ext_y (x y y' : ndarray) (i j : nat) (ks : list nat) (r : Z) :
  getrow y j = getrow y' j -> feat_loop x y i j ks r = feat_loop x y' i j ks r.
Proof.
  intros H. revert r; induction ks as [|k ks IH]; intros r; simpl; [reflexivity|].
  rewrite H. destruct (getrow x i); simpl; [|reflexivity].
  destruct (getitem l k); simpl; [|reflexivity].
  destruct (getrow y' j); simpl; [|reflexivity].
  destruct (getitem l0 k); simpl; [apply IH | reflexivity].
Qed.

Lemma numba1_ext_y (x y y' : ndarray) :
  (forall j, (j < nrows x)%nat -> getrow y j = getrow y' j) ->
  euclidean_numba1 x y = euclidean_numba1 x y'.
Proof.
  intros H. unfold euclidean_numba1.
  rewrite (mapM_ext_in _ (fun i => mapM (fun j => feat_loop x y' i j (seq 0 (ncols x)) 0)
                                        (seq 0 (nrows x)))); [reflexivity|].
  intros i _. apply mapM_ext_in. intros j Hj; apply In_seq0 in Hj.
  apply feat_loop_ext_y, H, Hj.
Qed.

Lemma numba2_ext_y (x y y' : ndarray) :
  (forall j, (j < nrows x)%nat -> getrow y j = getrow y' j) ->
  euclidean_numba2 x y = euclidean_numba2 x y'.
Proof.
  intros H. unfold euclidean_numba2.
  rewrite (mapM_ext_in _ (fun i => mapM (fun j => cell2 x y' i j) (seq 0 (nrows x))));
    [reflexivity|].
  intros i _. apply mapM_ext_in. intros j Hj; apply In_seq0 in Hj.
  unfold cell2. now rewrite (H j Hj).
Qed.

Lemma getrow_truncate (y : ndarray) (n j : nat) :
  (j < n)%nat -> getrow (truncate y n) j = getrow y j.
Proof.
  intros Hj. unfold getrow, truncate; simpl.
  rewrite nth_error_firstn. now replace (Nat.ltb j n) with true by (symmetry; apply Nat.ltb_lt, Hj).
Qed.

Lemma wf_truncate (y : ndarray) (n : nat) : wf y -> wf (truncate y n).
Proof.
  intros [Hl Hr]. unfold wf, truncate; simpl. split.
  - rewrite length_firstn; lia.
  - apply Forall_forall; intros r Hin. rewrite Forall_forall in Hr.
    apply Hr. rewrite <- (firstn_skipn n (data y)). apply in_or_app; now left.
Qed.

(** ** Shapes, signs, symmetry *)

Lemma loops_wf (N : nat) (g : nat -> nat -> option Z) (rows : list (list Z)) :
  mapM (fun i => mapM (g i) (seq 0 N)) (seq 0 N) = Some rows ->
  wf (mk_ndarray N N rows).
Proof.
  intros H. unfold wf; simpl. split.
  - rewrite (mapM_length _ _ _ H). apply length_seq.
  - apply Forall_forall. intros r Hr.
    destruct (mapM_Some_in _ _ _ H r Hr) as (i & _ & Hi).
    rewrite (mapM_length _ _ _ Hi). apply length_seq.
Qed.

Lemma numba1_shape (x y out : ndarray) :
  euclidean_numba1 x y = Some out ->
  wf out /\ nrows out = nrows x /\ ncols out = nrows x.
Proof.
  unfold euclidean_numba1.
  destruct (mapM _ (seq 0 (nrows x))) as [rows|] eqn:Hrows; simpl; [|discriminate].
  intros H; injection H as <-. simpl. split; [|tauto].
  exact (loops_wf _ _ _ Hrows).
Qed.

Lemma numba2_shape (x y out : ndarray) :
  euclidean_numba2 x y = Some out ->
  wf out /\ nrows out = nrows x /\ ncols out = nrows x.
Proof.
  unfold euclidean_numba2.
  destruct (mapM _ (seq 0 (nrows x))) as [rows|] eqn:Hrows; simpl; [|discriminate].
  intros H; injection H as <-. simpl. split; [|tauto].
  exact (loops_wf _ _ _ Hrows).
Qed.

Lemma numpy_shape (x y : ndarray) :
  wf x -> wf y -> ncols x = ncols y ->
  exists out, euclidean_numpy x y = Some out /\
              wf out /\ nrows out = nrows x /\ ncols out = nrows y.
Proof.
  intros Hx Hy HD. rewrite (numpy_rows x y Hx Hy HD).
  eexists; split; [reflexivity|]. simpl. split; [|tauto].
  destruct Hx as [Hlx _], Hy as [Hly _]. unfold wf; simpl. split.
  - now rewrite length_map.
  - apply Forall_forall. intros r Hr. apply in_map_iff in Hr.
    destruct Hr as (xr & <- & _). now rewrite length_map.
Qed.

Lemma loops_nonneg (N : nat) (g : nat -> nat -> option Z) (rows : list (list Z)) :
  (forall i j v, g i j = Some v -> 0 <= v) ->
  mapM (fun i => mapM (g i) (seq 0 N)) (seq 0 N) = Some rows ->
  Forall (Forall (fun v => 0 <= v)) rows.
Proof.
  intros Hg H. apply Forall_forall. intros r Hr.
  destruct (mapM_Some_in _ _ _ H r Hr) as (i & _ & Hi).
  apply Forall_forall. intros v Hv.
  destruct (mapM_Some_in _ _ _ Hi v Hv) as (j & _ & Hj). exact (Hg i j v Hj).
Qed.

Lemma sumZ_sq_nonneg (d : list Z) : 0 <= sumZ (map (fun v => v ^ 2) d).
Proof.
  unfold sumZ. induction d as [|a d IH]; cbn [map fold_right]; [lia|].
  pose proof (Z.pow_even_nonneg a 2). nia.
Qed.

Lemma sumZ_zeros {A} (l : list A) : sumZ (map (fun _ => 0) l) = 0.
Proof. unfold sumZ. induction l as [|a l IH]; cbn [map fold_right]; lia. Qed.

Lemma sq_dist_spec_comm (x y : ndarray) (D i j : nat) :
  sq_dist_spec x y D i j = sq_dist_spec y x D j i.
Proof. unfold sq_dist_spec. f_equal. apply map_ext; intros k; ring. Qed.

Lemma sq_dist_spec_diag (x : ndarray) (D i : nat) : sq_dist_spec x x D i i = 0.
Proof.
  unfold sq_dist_spec. rewrite <- (sumZ_zeros (seq 0 D)). f_equal.
  apply map_ext; intros k; ring.
Qed.

Lemma sq_dist_row_comm (u v : list Z) : sq_dist_row u v = sq_dist_row v u.
Proof.
  unfold sq_dist_row, sumZ. revert v.
  induction u as [|a u IH]; intros [|b v]; cbn [combine map fold_right]; try reflexivity.
  rewrite IH. ring.
Qed.

Lemma sq_dist_row_diag (u : list Z) : sq_dist_row u u = 0.
Proof.
  unfold sq_dist_row, sumZ.
  induction u as [|a u IH]; cbn [combine map fold_right]; [reflexivity|].
  rewrite IH. ring.
Qed.

Lemma get2_nested {A B} (g : A -> B -> Z) (la : list A) (lb : list B) (n m i j : nat) :
  get2 (mk_ndarray n m (map (fun a => map (fun b => g a b) lb) la)) i j =
  match nth_error la i, nth_error lb j with
  | Some a, Some b => Some (g a b)
  | _, _ => None
  end.
Proof.
  unfold get2, getrow, getitem; simpl. rewrite nth_error_map.
  destruct (nth_error la i); simpl; [|reflexivity].
  rewrite nth_error_map. destruct (nth_error lb j); reflexivity.
Qed.

(** ** Unchecked reads *)

Lemma concat_nth_error {A} (l : list (list A)) (D j k : nat) :
  Forall (fun r => length r = D) l -> (j < length l)%nat -> (k < D)%nat ->
  nth_error (concat l) (j * D + k) = nth_error (nth j l []) k.
Proof.
  revert j; induction l as [|r l IH]; intros j Hl Hj Hk; simpl in Hj; [lia|].
  inversion Hl as [|? ? Hr Hl']; subst D. cbn [concat].
  destruct j as [|j]; simpl.
  - apply nth_error_app1; lia.
  - rewrite nth_error_app2 by lia.
    replace (length r + j * length r + k - length r)%nat with (j * length r + k)%nat by lia.
    apply IH; [exact Hl' | lia | exact Hk].
Qed.

(** An in-range unchecked read is the element itself. *)
Lemma getitem2_in (mem : nat -> Z) (a : ndarray) (j k : nat) :
  wf a -> (j < nrows a)%nat -> (k < ncols a)%nat ->
  Unchecked.getitem2 mem a j k = nth k (nth j (data a) []) 0.
Proof.
  intros [Hl Hr] Hj Hk. unfold Unchecked.getitem2, Unchecked.read, Unchecked.flat.
  rewrite (concat_nth_error (data a) (ncols a) j k Hr ltac:(lia) Hk).
  rewrite (nth_error_nth' _ 0); [reflexivity|].
  rewrite Forall_forall in Hr. rewrite Hr; [exact Hk|]. apply nth_In; lia.
Qed.

Lemma getitem2_checked (mem : nat -> Z) (a : ndarray) (j k : nat) (r : list Z) (v : Z) :
  wf a -> getrow a j = Some r -> getitem r k = Some v ->
  Unchecked.getitem2 mem a j k = v.
Proof.
  intros Ha Hr Hv.
  assert (Hj : (j < nrows a)%nat).
  { destruct (Nat.lt_ge_cases j (nrows a)) as [|Hge]; [assumption|].
    apply (getrow_None a j Ha) in Hge. congruence. }
  destruct (getrow_wf a j Ha Hj) as (r' & Hr' & Hlen).
  rewrite Hr in Hr'. injection Hr' as <-.
  assert (Hk : (k < ncols a)%nat).
  { rewrite <- Hlen. apply nth_error_Some. unfold getitem in Hv. congruence. }
  rewrite (getitem2_in mem a j k Ha Hj Hk).
  unfold getrow, getitem in *.
  rewrite (nth_error_nth _ _ _ Hr), (nth_error_nth _ _ _ Hv). reflexivity.
Qed.

Lemma ufeat_loop_sum (memx memy : nat -> Z) (x y : ndarray) (i j : nat)
    (ks : list nat) (r : Z) :
  Unchecked.feat_loop memx memy x y i j ks r =
  r + sumZ (map (fun k => (Unchecked.getitem2 memx x i k -
                           Unchecked.getitem2 memy y j k) ^ 2) ks).
Proof.
  revert r; induction ks as [|k ks IH]; intros r; cbn [Unchecked.feat_loop map].
  - unfold sumZ; simpl. ring.
  - rewrite IH. unfold sumZ; cbn [fold_right]. ring.
Qed.

(** Where the checked loop returns, it returns what the compiled code does. *)
Lemma feat_loop_unchecked (memx memy : nat -> Z) (x y : ndarray) (i j : nat)
    (ks : list nat) (r v : Z) :
  wf x -> wf y -> feat_loop x y i j ks r = Some v ->
  v = Unchecked.feat_loop memx memy x y i j ks r.
Proof.
  intros Hx Hy. revert r; induction ks as [|k ks IH]; intros r H; cbn [feat_loop] in H.
  - injection H as <-. reflexivity.
  - destruct (getrow x i) as [xi|] eqn:Hxi; cbn [bind] in H; [|discriminate].
    destruct (getitem xi k) as [xik|] eqn:Hxik; cbn [bind] in H; [|discriminate].
    destruct (getrow y j) as [yj|] eqn:Hyj; cbn [bind] in H; [|discriminate].
    destruct (getitem yj k) as [yjk|] eqn:Hyjk; cbn [bind] in H; [|discriminate].
    cbn [Unchecked.feat_loop].
    rewrite (getitem2_checked memx x i k xi xik Hx Hxi Hxik),
            (getitem2_checked memy y j k yj yjk Hy Hyj Hyjk).
    apply IH, H.
Qed.

Lemma mapM_Some_eq {A B} (f : A -> option B) (g : A -> B) (l : list A) (bs : list B) :
  (forall a b, In a l -> f a = Some b -> b = g a) -> mapM f l = Some bs -> bs = map g l.
Proof.
  revert bs; induction l as [|a l IH]; intros bs Hfg H; simpl in H.
  - now injection H as <-.
  - destruct (f a) as [b|] eqn:Ha; simpl in H; [|discriminate].
    destruct (mapM f l) as [cs|] eqn:Hl; simpl in H; [|discriminate].
    injection H as <-. simpl. f_equal.
    + apply Hfg; [now left | exact Ha].
    + apply IH; [intros a' b' Hin; apply Hfg; now right | reflexivity].
Qed.

Lemma numba1_unchecked (memx memy : nat -> Z) (x y out : ndarray) :
  wf x -> wf y -> euclidean_numba1 x y = Some out ->
  out = Unchecked.euclidean_numba1 memx memy x y.
Proof.
  intros Hx Hy. unfold euclidean_numba1, Unchecked.euclidean_numba1.
  destruct (mapM _ (seq 0 (nrows x))) as [rows|] eqn:Hrows; simpl; [|discriminate].
  intros H; injection H as <-. f_equal.
  revert Hrows. apply mapM_Some_eq. intros i row _ Hrow.
  revert Hrow. apply mapM_Some_eq. intros j v _ Hv.
  exact (feat_loop_unchecked memx memy x y i j _ 0 v Hx Hy Hv).
Qed.

Lemma ugetrow_length (mem : nat -> Z) (a : ndarray) (j : nat) :
  length (Unchecked.getrow mem a j) = ncols a.
Proof. unfold Unchecked.getrow. now rewrite length_map, length_seq. Qed.

Lemma ucell2_same (memx memy : nat -> Z) (x y : ndarray) (i j : nat) :
  ncols x = ncols y ->
  Unchecked.cell2 memx memy x y i j =
  Some (Unchecked.feat_loop memx memy x y i j (seq 0 (ncols x)) 0).
Proof.
  intros HD. unfold Unchecked.cell2.
  rewrite sub_bcast_same by (rewrite !ugetrow_length; exact HD). cbn [bind].
  rewrite ufeat_loop_sum, Z.add_0_l. f_equal.
  unfold Unchecked.getrow. rewrite <- HD, combine_map_same, !map_map. reflexivity.
Qed.

Lemma unumba2_numba1 (memx memy : nat -> Z) (x y : ndarray) :
  ncols x = ncols y ->
  Unchecked.euclidean_numba2 memx memy x y =
  Some (Unchecked.euclidean_numba1 memx memy x y).
Proof.
  intros HD. unfold Unchecked.euclidean_numba2, Unchecked.euclidean_numba1.
  erewrite mapM_Some_map; [reflexivity|]. intros i _.
  apply mapM_Some_map. intros j _. apply ucell2_same, HD.
Qed.

Lemma ufeat_loop_in (memx memy : nat -> Z) (x y : ndarray) (i j : nat) :
  wf x -> wf y -> ncols x = ncols y -> (i < nrows x)%nat -> (j < nrows y)%nat ->
  Unchecked.feat_loop memx memy x y i j (seq 0 (ncols x)) 0 = sq_dist_spec x y (ncols x) i j.
Proof.
  intros Hx Hy HD Hi Hj. rewrite ufeat_loop_sum, Z.add_0_l. unfold sq_dist_spec. f_equal.
  apply map_ext_in; intros k Hk; apply In_seq0 in Hk.
  rewrite (getitem2_in memx x i k Hx Hi Hk), (getitem2_in memy y j k Hy Hj ltac:(lia)).
  reflexivity.
Qed.

Lemma unumba1_get2 (memx memy : nat -> Z) (x y : ndarray) (i j : nat) :
  get2 (Unchecked.euclidean_numba1 memx memy x y) i j =
  if Nat.ltb i (nrows x) && Nat.ltb j (nrows x)
  then Some (Unchecked.feat_loop memx memy x y i j (seq 0 (ncols x)) 0) else None.
Proof.
  exact (get2_table (nrows x) (nrows x)
           (fun i j => Unchecked.feat_loop memx memy x y i j (seq 0 (ncols x)) 0)
           (nrows x) (nrows x) i j).
Qed.

(** * Claims *)

(** ** C1: output shapes *)

(** C1 (counterexample): with [X] of shape [(0, 5)] and [Y] of shape [(3, 5)],
    [euclidean_numba1] returns a matrix of shape [(0, 0)], not [(0, 3)]. *)
Lemma C1_counterexample :
  euclidean_numba1 X0_5 Y3_5 = Some (mk_ndarray 0 0 []) /\ nrows Y3_5 = 3%nat.
Proof. split; reflexivity. Qed.

(** C1 (amended): for [X] of shape [(N, D)] and [Y] of shape [(M, D)],
    [euclidean_numpy] returns a well-formed matrix of shape [(N, M)]; the
    loop variants [euclidean_numba1] and [euclidean_numba2] take both output
    dimensions from [X]: whenever they return, the result has shape [(N, N)],
    and for [N = 0] they return the empty [(0, 0)] matrix without error. *)
Theorem C1_shapes (x y : ndarray) :
  wf x -> wf y -> ncols x = ncols y ->
  (exists out, euclidean_numpy x y = Some out /\
               wf out /\ nrows out = nrows x /\ ncols out = nrows y) /\
  (forall out, euclidean_numba1 x y = Some out ->
               wf out /\ nrows out = nrows x /\ ncols out = nrows x) /\
  (forall out, euclidean_numba2 x y = Some out ->
               wf out /\ nrows out = nrows x /\ ncols out = nrows x) /\
  (nrows x = 0%nat ->
     euclidean_numba1 x y = Some (mk_ndarray 0 0 []) /\
     euclidean_numba2 x y = Some (mk_ndarray 0 0 [])).
Proof.
  intros Hx Hy HD. split; [exact (numpy_shape x y Hx Hy HD)|].
  split; [apply numba1_shape|]. split; [apply numba2_shape|].
  intros HN. unfold euclidean_numba1, euclidean_numba2. rewrite HN.
  split; reflexivity.
Qed.

Lemma C1_witness :
  wf X0_5 /\ wf Y3_5 /\ ncols X0_5 = ncols Y3_5 /\
  euclidean_numpy X0_5 Y3_5 = Some (mk_ndarray 0 3 []) /\
  euclidean_numba1 X0_5 Y3_5 = Some (mk_ndarray 0 0 []).
Proof.
  assert (Hx : wf X0_5) by (split; [reflexivity | repeat constructor]).
  assert (Hy : wf Y3_5) by (split; [reflexivity | repeat constructor]).
  pose proof (C1_shapes X0_5 Y3_5 Hx Hy eq_refl) as (_ & _ & _ & H0).
  exact (conj Hx (conj Hy (conj eq_refl (conj eq_refl (proj1 (H0 eq_refl)))))).
Defined.

(** ** C2: error conditions *)

(** C2 (counterexample): [X] has [D = 1], [Y] has [D = 2], yet
    [euclidean_numba1] returns a result instead of raising a shape error
    (every access it makes is in range). *)
Lemma C2_counterexample :
  ncols X1_1 <> ncols Y1_2 /\
  euclidean_numba1 X1_1 Y1_2 = Some (mk_ndarray 1 1 [[0]]).
Proof. split; [discriminate | reflexivity]. Qed.

(** C2 (amended): no function checks the feature dimensions itself.
    [euclidean_numpy] raises exactly when they differ (the shape error of
    [np.dot(x, y.T)]).  [euclidean_numba1] raises nothing: it indexes
    [y[j][k]] out of range (an unchecked read in the compiled code) exactly
    when [N > 0], [D_x > 0] and ([rows(Y) < N] or [D_y < D_x]); otherwise
    every access is in range and it returns the result of its loops, which
    ignores the features of [Y] beyond [D_x]. *)
Theorem C2_errors (x y : ndarray) :
  wf x -> wf y ->
  (euclidean_numpy x y = None <-> ncols x <> ncols y) /\
  (euclidean_numba1 x y = None <->
     (0 < nrows x /\ 0 < ncols x /\ (nrows y < nrows x \/ ncols y < ncols x))%nat) /\
  (forall memx memy out, euclidean_numba1 x y = Some out ->
     out = Unchecked.euclidean_numba1 memx memy x y).
Proof.
  intros Hx Hy. split; [apply numpy_None|]. split; [apply numba1_None; assumption|].
  intros memx memy out H. exact (numba1_unchecked memx memy x y out Hx Hy H).
Qed.

Lemma C2_witness :
  (euclidean_numpy X1_1 Y1_2 = None <-> ncols X1_1 <> ncols Y1_2) /\
  (euclidean_numba1 X123 Y1_2 = None <->
     (0 < nrows X123 /\ 0 < ncols X123 /\
      (nrows Y1_2 < nrows X123 \/ ncols Y1_2 < ncols X123))%nat) /\
  mk_ndarray 1 1 [[0]] = Unchecked.euclidean_numba1 (fun _ => 0) (fun _ => 0) X1_1 Y1_2.
Proof.
  assert (Hx : wf X123) by (split; [reflexivity | repeat constructor]).
  assert (Hx1 : wf X1_1) by (split; [reflexivity | repeat constructor]).
  assert (Hy : wf Y1_2) by (split; [reflexivity | repeat constructor]).
  split; [exact (proj1 (C2_errors X1_1 Y1_2 Hx1 Hy))|].
  split; [exact (proj1 (proj2 (C2_errors X123 Y1_2 Hx Hy)))|].
  exact (proj2 (proj2 (C2_errors X1_1 Y1_2 Hx1 Hy)) (fun _ => 0) (fun _ => 0)
           (mk_ndarray 1 1 [[0]]) eq_refl).
Defined.

(** ** C3: entries of euclidean_numba1 *)

(** C3 (counterexample): [X] has 1 row, [Y] has 2 rows, [D = 1]; the cell
    [(0, 1)] is in range for [(rows(X), rows(Y))] but [euclidean_numba1]
    returns a [(1, 1)] matrix, so it has no such cell (the claimed value would
    be [(0 - 1)² = 1]). *)
Lemma C3_counterexample :
  euclidean_numba1 X1r Y2r = Some (mk_ndarray 1 1 [[0]]) /\
  get2 (mk_ndarray 1 1 [[0]]) 0 1 = None /\
  sq_dist_spec X1r Y2r 1 0 1 = 1.
Proof. repeat split; reflexivity. Qed.

(** C3 (amended): if [X] has [N] rows, [Y] has at least [N] rows and both have
    feature dimension [D], [euclidean_numba1] returns an [(N, N)] matrix with
    [output[i][j] = Σ_k (X[i][k] − Y[j][k])²] for all [i, j < N]. *)
Theorem C3_entries (x y : ndarray) :
  wf x -> wf y -> ncols x = ncols y -> (nrows x <= nrows y)%nat ->
  exists out, euclidean_numba1 x y = Some out /\
    nrows out = nrows x /\ ncols out = nrows x /\
    forall i j, (i < nrows x)%nat -> (j < nrows x)%nat ->
      get2 out i j = Some (sq_dist_spec x y (ncols x) i j).
Proof.
  intros Hx Hy HD HM. rewrite (numba1_Some x y Hx Hy HM ltac:(lia)).
  eexists; split; [reflexivity|]. simpl. split; [reflexivity|]. split; [reflexivity|].
  intros i j Hi Hj. rewrite get2_table.
  apply Nat.ltb_lt in Hi, Hj. now rewrite Hi, Hj.
Qed.

Lemma C3_witness :
  exists out, euclidean_numba1 X123 Y456 = Some out /\
    get2 out 0 0 = Some (sq_dist_spec X123 Y456 3 0 0) /\
    sq_dist_spec X123 Y456 3 0 0 = 27.
Proof.
  assert (Hx : wf X123) by (split; [reflexivity | repeat constructor]).
  assert (Hy : wf Y456) by (split; [reflexivity | repeat constructor]).
  destruct (C3_entries X123 Y456 Hx Hy eq_refl ltac:(simpl; lia))
    as (out & Hout & _ & _ & Hij).
  exists out. split; [exact Hout|]. split; [apply Hij; simpl; lia | reflexivity].
Defined.

(** ** C4: euclidean_numpy against euclidean_numba1 *)

Lemma truncate_all (y : ndarray) : wf y -> truncate y (nrows y) = y.
Proof.
  intros [Hl _]. destruct y as [n m d]; unfold truncate; simpl in *.
  rewrite Nat.min_id, firstn_all2 by lia. reflexivity.
Qed.

(** C4 (counterexample): both halves of the claim fail.
    - Exact arithmetic: [X] has 1 row and [Y] 2 rows ([D = 1]):
      [euclidean_numpy] returns a [(1, 2)] matrix, [euclidean_numba1] a
      [(1, 1)] one, so the two strategies do not produce the same result.
    - Floating point: for [X = [[10^8 + 1]]] and [Y = [[10^8]]] both
      strategies give [1] over exact arithmetic, and so does
      [euclidean_numba1] in [float64]; but in [float64] the expansion
      [x2 + y2 - 2 xy] cancels to [0], since [(10^8 + 1)^2] is not
      representable.  The difference [1] exceeds [1e-6] and [1e-9] times the
      exact value [1]. *)
#[warnings="-inexact-float"] Lemma C4_counterexample :
  euclidean_numpy X1r Y2r = Some (mk_ndarray 1 2 [[0; 1]]) /\
  euclidean_numba1 X1r Y2r = Some (mk_ndarray 1 1 [[0]]) /\
  euclidean_numpy Xbig Ybig = Some (mk_ndarray 1 1 [[1]]) /\
  euclidean_numba1 Xbig Ybig = Some (mk_ndarray 1 1 [[1]]) /\
  Float64.euclidean_numba1 XbigF YbigF = [[1%float]] /\
  Float64.euclidean_numpy XbigF YbigF = [[0%float]] /\
  PrimFloat.ltb (1e-6)%float (PrimFloat.abs (1 - 0)%float) = true /\
  PrimFloat.ltb (1e-9 * 1)%float (PrimFloat.abs (1 - 0)%float) = true.
Proof. repeat split; vm_compute; reflexivity. Qed.

(** C4 (amended): over exact arithmetic, when [Y] has at least [N = rows(X)]
    rows and the feature dimensions agree, [euclidean_numba1] returns exactly
    what the algebraic expansion [euclidean_numpy] returns on [X] and the
    first [N] rows of [Y]; in particular the two are equal when
    [rows(X) = rows(Y)].  No tolerance bound of the claimed kind holds in
    floating point (see the counterexample). *)
Theorem C4_numpy_numba1 (x y : ndarray) :
  wf x -> wf y -> ncols x = ncols y -> (nrows x <= nrows y)%nat ->
  euclidean_numba1 x y = euclidean_numpy x (truncate y (nrows x)) /\
  (nrows x = nrows y -> euclidean_numba1 x y = euclidean_numpy x y).
Proof.
  intros Hx Hy HD HM.
  assert (Heq : euclidean_numba1 x y = euclidean_numpy x (truncate y (nrows x))).
  { rewrite (numba1_Some x y Hx Hy HM ltac:(lia)).
    rewrite (numpy_rows x (truncate y (nrows x)) Hx (wf_truncate y _ Hy) HD).
    simpl. rewrite Nat.min_l by exact HM. do 2 f_equal.
    destruct Hx as [Hlx Hrx], Hy as [Hly Hry].
    rewrite Forall_forall in Hrx, Hry.
    rewrite (map_as_table _ (data x) []), Hlx. unfold table.
    apply map_ext_in; intros i Hi; apply In_seq0 in Hi.
    assert (Hlf : length (firstn (nrows x) (data y)) = nrows x)
      by (rewrite length_firstn; lia).
    rewrite (map_as_table _ (firstn (nrows x) (data y)) []), Hlf.
    apply map_ext_in; intros j Hj; apply In_seq0 in Hj.
    rewrite nth_firstn. replace (Nat.ltb j (nrows x)) with true
      by (symmetry; apply Nat.ltb_lt, Hj).
    unfold sq_dist_spec. apply sq_dist_spec_row.
    - apply Hrx, nth_In; lia.
    - rewrite HD. apply Hry, nth_In; lia. }
  split; [exact Heq|].
  intros HN. rewrite Heq, HN, truncate_all; [reflexivity | exact Hy].
Qed.

Lemma C4_witness :
  euclidean_numba1 X00_34 Y3_2 = euclidean_numpy X00_34 (truncate Y3_2 2) /\
  euclidean_numba1 X00_34 Y3_2 = Some (mk_ndarray 2 2 [[0; 25]; [25; 0]]).
Proof.
  assert (Hx : wf X00_34) by (split; [reflexivity | repeat constructor]).
  assert (Hy : wf Y3_2) by (split; [reflexivity | repeat constructor]).
  split; [exact (proj1 (C4_numpy_numba1 X00_34 Y3_2 Hx Hy eq_refl ltac:(simpl; lia)))|].
  reflexivity.
Defined.

(** ** C5: euclidean_numba2 against euclidean_numba1 *)

(** C5: for inputs with equal feature dimension, the row-wise variant
    [euclidean_numba2] returns exactly the matrix of the triple loop
    [euclidean_numba1] (over exact arithmetic), whatever the memory after the
    arrays holds: both read the same flat offsets in the same order, so they
    agree even when [rows(Y) < rows(X)] makes them read past the end of [y].
    When [rows(Y) >= rows(X)] every access is in range, and this common
    result is also the one of the checked loops. *)
Theorem C5_numba2_numba1 (memx memy : nat -> Z) (x y : ndarray) :
  ncols x = ncols y ->
  Unchecked.euclidean_numba2 memx memy x y =
    Some (Unchecked.euclidean_numba1 memx memy x y) /\
  (wf x -> wf y -> (nrows x <= nrows y)%nat ->
     euclidean_numba2 x y = Some (Unchecked.euclidean_numba1 memx memy x y) /\
     euclidean_numba1 x y = Some (Unchecked.euclidean_numba1 memx memy x y)).
Proof.
  intros HD. split; [exact (unumba2_numba1 memx memy x y HD)|].
  intros Hx Hy HM.
  assert (H1 : euclidean_numba1 x y = Some (Unchecked.euclidean_numba1 memx memy x y)).
  { destruct (euclidean_numba1 x y) as [out|] eqn:E.
    - f_equal. exact (numba1_unchecked memx memy x y out Hx Hy E).
    - rewrite (numba1_Some x y Hx Hy HM ltac:(lia)) in E. discriminate. }
  split; [|exact H1].
  rewrite <- H1, (numba2_Some x y Hx Hy HM HD), (numba1_Some x y Hx Hy HM ltac:(lia)).
  reflexivity.
Qed.

Lemma C5_witness :
  Unchecked.euclidean_numba2 (fun _ => 0) (fun _ => 0) Y3_2 X00_34 =
    Some (Unchecked.euclidean_numba1 (fun _ => 0) (fun _ => 0) Y3_2 X00_34) /\
  euclidean_numba2 X00_34 Y3_2 =
    Some (Unchecked.euclidean_numba1 (fun _ => 0) (fun _ => 0) X00_34 Y3_2).
Proof.
  assert (Hx : wf X00_34) by (split; [reflexivity | repeat constructor]).
  assert (Hy : wf Y3_2) by (split; [reflexivity | repeat constructor]).
  split.
  - exact (proj1 (C5_numba2_numba1 (fun _ => 0) (fun _ => 0) Y3_2 X00_34 eq_refl)).
  - exact (proj1 (proj2 (C5_numba2_numba1 (fun _ => 0) (fun _ => 0) X00_34 Y3_2 eq_refl)
                   Hx Hy ltac:(simpl; lia))).
Defined.

(** ** C6: non-negative entries *)

(** C6: over exact arithmetic every entry returned by [euclidean_numba1] (a
    sum of squares), [euclidean_numba2] (a sum of squares) and
    [euclidean_numpy] (the result of [np.abs]) is [>= 0]. *)
Theorem C6_nonneg (x y out : ndarray) :
  (euclidean_numba1 x y = Some out -> nonneg out) /\
  (euclidean_numba2 x y = Some out -> nonneg out) /\
  (euclidean_numpy x y = Some out -> nonneg out).
Proof.
  split; [|split].
  - unfold euclidean_numba1.
    destruct (mapM _ (seq 0 (nrows x))) as [rows|] eqn:Hrows; simpl; [|discriminate].
    intros H; injection H as <-. unfold nonneg; simpl.
    apply (loops_nonneg (nrows x) (fun i j => feat_loop x y i j (seq 0 (ncols x)) 0));
      [|exact Hrows].
    intros i j v Hv. exact (feat_loop_nonneg x y i j _ 0 v (Z.le_refl 0) Hv).
  - unfold euclidean_numba2.
    destruct (mapM _ (seq 0 (nrows x))) as [rows|] eqn:Hrows; simpl; [|discriminate].
    intros H; injection H as <-. unfold nonneg; simpl.
    apply (loops_nonneg (nrows x) (cell2 x y)); [|exact Hrows].
    intros i j v Hv. unfold cell2 in Hv.
    destruct (getrow x i); simpl in Hv; [|discriminate].
    destruct (getrow y j); simpl in Hv; [|discriminate].
    destruct (sub_bcast l l0); simpl in Hv; [|discriminate].
    injection Hv as <-. apply sumZ_sq_nonneg.
  - intros H.
    assert (HD : ncols x = ncols y).
    { destruct (Nat.eq_dec (ncols x) (ncols y)) as [|Hne]; [assumption|].
      apply numpy_None in Hne. congruence. }
    rewrite (numpy_Some x y HD) in H. injection H as <-. unfold nonneg; simpl.
    apply Forall_forall; intros r Hr. apply in_map_iff in Hr.
    destruct Hr as (xr & <- & _).
    apply Forall_forall; intros v Hv. apply in_map_iff in Hv.
    destruct Hv as (yr & <- & _). apply Z.abs_nonneg.
Qed.

Lemma C6_witness :
  nonneg (mk_ndarray 2 2 [[0; 25]; [25; 0]]) /\
  nonneg (mk_ndarray 1 1 [[27]]).
Proof.
  split.
  - exact (proj1 (C6_nonneg X00_34 X00_34 _) eq_refl).
  - exact (proj2 (proj2 (C6_nonneg X123 Y456 _)) eq_refl).
Defined.

(** ** C7: swap and transpose *)

(** C7 (counterexample): [X] with 1 row and [Y] with 2 rows ([D = 1]).
    The indices [(i, j) = (0, 1)] are in range for [(rows(X), rows(Y))].
    [euclidean_numba1 X Y] makes only in-range accesses and returns a
    [(1, 1)] matrix, which has no cell [(0, 1)]; [euclidean_numba1 Y X] has
    the cell [(1, 0)], equal to [1], computed from the in-range elements
    [Y[1][0]] and [X[0][0]] only, so its value does not depend on memory. *)
Lemma C7_counterexample :
  euclidean_numba1 X1r Y2r = Some (mk_ndarray 1 1 [[0]]) /\
  get2 (mk_ndarray 1 1 [[0]]) 0 1 = None /\
  get2 (Unchecked.euclidean_numba1 (fun _ => 0) (fun _ => 0) Y2r X1r) 1 0 = Some 1.
Proof. repeat split; reflexivity. Qed.

(** C7 (amended): for inputs of equal feature dimension,
    [euclidean_numpy(X, Y)[i][j] = euclidean_numpy(Y, X)[j][i]] for all
    [i, j].  For the loop variant [euclidean_numba1] this holds for all
    [i, j] when [rows(X) = rows(Y)]; for any row counts it holds for
    [i, j < min(rows(X), rows(Y))], the cells present in both results, whose
    accesses are all in range (whatever the compiled code reads elsewhere). *)
Theorem C7_swap (x y : ndarray) :
  wf x -> wf y -> ncols x = ncols y ->
  (exists out out', euclidean_numpy x y = Some out /\ euclidean_numpy y x = Some out' /\
     forall i j, get2 out i j = get2 out' j i) /\
  (nrows x = nrows y ->
   exists out out', euclidean_numba1 x y = Some out /\ euclidean_numba1 y x = Some out' /\
     forall i j, get2 out i j = get2 out' j i) /\
  (forall memx memy i j,
     (i < nrows x)%nat -> (i < nrows y)%nat -> (j < nrows x)%nat -> (j < nrows y)%nat ->
     get2 (Unchecked.euclidean_numba1 memx memy x y) i j =
     get2 (Unchecked.euclidean_numba1 memy memx y x) j i).
Proof.
  intros Hx Hy HD. split; [|split].
  - rewrite (numpy_rows x y Hx Hy HD), (numpy_rows y x Hy Hx (eq_sym HD)).
    do 2 eexists; split; [reflexivity|]; split; [reflexivity|].
    intros i j. rewrite !get2_nested.
    destruct (nth_error (data x) i), (nth_error (data y) j); try reflexivity.
    now rewrite sq_dist_row_comm.
  - intros HN.
    rewrite (numba1_Some x y Hx Hy ltac:(lia) ltac:(lia)),
            (numba1_Some y x Hy Hx ltac:(lia) ltac:(lia)).
    do 2 eexists; split; [reflexivity|]; split; [reflexivity|].
    intros i j. rewrite !get2_table, HN, andb_comm, HD, sq_dist_spec_comm.
    reflexivity.
  - intros memx memy i j Hix Hiy Hjx Hjy. rewrite !unumba1_get2.
    replace (Nat.ltb i (nrows x)) with true by (symmetry; apply Nat.ltb_lt, Hix).
    replace (Nat.ltb j (nrows x)) with true by (symmetry; apply Nat.ltb_lt, Hjx).
    replace (Nat.ltb i (nrows y)) with true by (symmetry; apply Nat.ltb_lt, Hiy).
    replace (Nat.ltb j (nrows y)) with true by (symmetry; apply Nat.ltb_lt, Hjy).
    simpl. rewrite (ufeat_loop_in memx memy x y i j Hx Hy HD Hix Hjy).
    rewrite (ufeat_loop_in memy memx y x j i Hy Hx (eq_sym HD) Hjy Hix).
    rewrite HD, sq_dist_spec_comm. reflexivity.
Qed.

Lemma C7_witness :
  exists out out', euclidean_numpy X1r Y2r = Some out /\
    euclidean_numpy Y2r X1r = Some out' /\ get2 out 0 1 = get2 out' 1 0.
Proof.
  assert (Hx : wf X1r) by (split; [reflexivity | repeat constructor]).
  assert (Hy : wf Y2r) by (split; [reflexivity | repeat constructor]).
  destruct (proj1 (C7_swap X1r Y2r Hx Hy eq_refl)) as (out & out' & H1 & H2 & H3).
  exists out, out'. split; [exact H1|]. split; [exact H2 | apply H3].
Defined.

(** ** C8: compute(X, X) *)

(** C8: for a well-formed [X] with [N] rows, [euclidean_numba1 X X] and
    [euclidean_numpy X X] both return an [(N, N)] matrix that is symmetric
    and has a zero diagonal (exactly, over exact arithmetic). *)
Theorem C8_self (x : ndarray) :
  wf x ->
  (exists out, euclidean_numba1 x x = Some out /\
     nrows out = nrows x /\ ncols out = nrows x /\
     forall i j, get2 out i j = get2 out j i /\
                 ((i < nrows x)%nat -> get2 out i i = Some 0)) /\
  (exists out, euclidean_numpy x x = Some out /\
     nrows out = nrows x /\ ncols out = nrows x /\
     forall i j, get2 out i j = get2 out j i /\
                 ((i < nrows x)%nat -> get2 out i i = Some 0)).
Proof.
  intros Hx. split.
  - rewrite (numba1_Some x x Hx Hx (Nat.le_refl _) (Nat.le_refl _)).
    eexists; split; [reflexivity|]. simpl. split; [reflexivity|]. split; [reflexivity|].
    intros i j. rewrite !get2_table. split.
    + rewrite andb_comm, sq_dist_spec_comm. reflexivity.
    + intros Hi. apply Nat.ltb_lt in Hi. rewrite Hi, sq_dist_spec_diag. reflexivity.
  - rewrite (numpy_rows x x Hx Hx eq_refl).
    eexists; split; [reflexivity|]. simpl. split; [reflexivity|]. split; [reflexivity|].
    intros i j. rewrite !get2_nested. split.
    + destruct (nth_error (data x) i), (nth_error (data x) j); try reflexivity.
      now rewrite sq_dist_row_comm.
    + intros Hi. destruct Hx as [Hl _].
      destruct (nth_error (data x) i) eqn:E.
      * now rewrite sq_dist_row_diag.
      * apply nth_error_None in E. lia.
Qed.

Lemma C8_witness :
  exists out, euclidean_numba1 X00_34 X00_34 = Some out /\
    get2 out 0 1 = get2 out 1 0 /\ get2 out 1 1 = Some 0.
Proof.
  assert (Hx : wf X00_34) by (split; [reflexivity | repeat constructor]).
  destruct (proj1 (C8_self X00_34 Hx)) as (out & Hout & _ & _ & Hsym).
  exists out. split; [exact Hout|].
  split; [exact (proj1 (Hsym 0%nat 1%nat)) | apply (Hsym 1%nat 1%nat); simpl; lia].
Defined.

(** ** C9: rows of Y beyond rows(X) *)

(** C9: when [Y] has more rows than [X] ([M > N]) and the feature dimensions
    agree, [euclidean_numba1] and [euclidean_numba2] return without error and
    give the same result as on [Y] truncated to its first [N] rows. *)
Theorem C9_extra_rows (x y : ndarray) :
  wf x -> wf y -> ncols x = ncols y -> (nrows x < nrows y)%nat ->
  euclidean_numba1 x y = euclidean_numba1 x (truncate y (nrows x)) /\
  euclidean_numba2 x y = euclidean_numba2 x (truncate y (nrows x)) /\
  euclidean_numba1 x y <> None /\ euclidean_numba2 x y <> None.
Proof.
  intros Hx Hy HD HM.
  assert (Ht : forall j, (j < nrows x)%nat -> getrow y j = getrow (truncate y (nrows x)) j)
    by (intros j Hj; symmetry; apply getrow_truncate, Hj).
  split; [apply numba1_ext_y, Ht|].
  split; [apply numba2_ext_y, Ht|].
  split.
  - rewrite (numba1_Some x y Hx Hy ltac:(lia) ltac:(lia)). discriminate.
  - rewrite (numba2_Some x y Hx Hy ltac:(lia) HD). discriminate.
Qed.

Lemma C9_witness :
  euclidean_numba1 X00_34 Y3_2 = euclidean_numba1 X00_34 (truncate Y3_2 2) /\
  euclidean_numba2 X00_34 Y3_2 = euclidean_numba2 X00_34 (truncate Y3_2 2).
Proof.
  assert (Hx : wf X00_34) by (split; [reflexivity | repeat constructor]).
  assert (Hy : wf Y3_2) by (split; [reflexivity | repeat constructor]).
  destruct (C9_extra_rows X00_34 Y3_2 Hx Hy eq_refl ltac:(simpl; lia))
    as (H1 & H2 & _ & _).
  split; [exact H1 | exact H2].
Defined.

(** ** C10: index bounds *)




(** * Further properties of the notebook's code *)

(** ** euclidean_loop2: filling a zero matrix *)

Ltac nat_bool_cases :=
  repeat match goal with
  | |- context [Nat.eqb ?a ?b] => destruct (Nat.eqb_spec a b)
  | |- context [Nat.leb ?a ?b] => destruct (Nat.leb_spec a b)
  | |- context [Nat.ltb ?a ?b] => destruct (Nat.ltb_spec a b)
  end; simpl; try lia; try reflexivity.

Lemma table_ext (N M : nat) (F G : nat -> nat -> Z) :
  (forall a b, (a < N)%nat -> (b < M)%nat -> F a b = G a b) ->
  table N M F = table N M G.
Proof.
  intros H. unfold table. apply map_ext_in; intros a Ha; apply In_seq0 in Ha.
  apply map_ext_in; intros b Hb; apply In_seq0 in Hb. auto.
Qed.

Lemma repeat_as_map {A} (c : A) (s n : nat) : repeat c n = map (fun _ => c) (seq s n).
Proof. revert s; induction n as [|n IH]; intros s; simpl; [reflexivity | now rewrite (IH (S s))]. Qed.

Lemma np_zeros_table (N : nat) : np_zeros N N = table N N (fun _ _ => 0).
Proof.
  unfold np_zeros, table. rewrite (repeat_as_map _ 0 N). apply map_ext; intros a.
  apply repeat_as_map.
Qed.

Lemma list_set_map_seq {A} (g : nat -> A) (s n i : nat) (v : A) :
  list_set (map g (seq s n)) i v =
  if Nat.ltb i n then Some (map (fun k => if Nat.eqb k (s + i) then v else g k) (seq s n))
  else None.
Proof.
  revert s i; induction n as [|n IH]; intros s i; [reflexivity|].
  cbn [seq map]. destruct i as [|i]; cbn [list_set].
  - rewrite Nat.add_0_r, Nat.eqb_refl. simpl. do 2 f_equal.
    apply map_ext_in; intros k Hk; apply in_seq in Hk.
    destruct (Nat.eqb_spec k s); [lia | reflexivity].
  - rewrite IH. change (Nat.ltb (S i) (S n)) with (Nat.ltb i n).
    destruct (Nat.ltb i n); [|reflexivity]. simpl.
    destruct (Nat.eqb_spec s (s + S i)); [lia|]. do 2 f_equal.
    apply map_ext; intros k. now rewrite Nat.add_succ_r.
Qed.

Lemma setitem2_table (N : nat) (f : nat -> nat -> Z) (i j : nat) (v : Z) :
  (i < N)%nat ->
  setitem2 (table N N f) i j v =
  if Nat.ltb j N then
    Some (table N N (fun a b => if Nat.eqb a i && Nat.eqb b j then v else f a b))
  else None.
Proof.
  intros Hi. unfold setitem2, table.
  rewrite nth_error_map, nth_error_seq. apply Nat.ltb_lt in Hi. rewrite Hi. simpl.
  rewrite (list_set_map_seq (fun b => f i b)). destruct (Nat.ltb j N); [|reflexivity].
  simpl. rewrite (list_set_map_seq (fun a => map (fun b => f a b) (seq 0 N))), Hi.
  f_equal. apply map_ext; intros a. simpl.
  destruct (Nat.eqb_spec a i) as [->|]; simpl.
  - apply map_ext; intros b. reflexivity.
  - reflexivity.
Qed.

Lemma loop2_inner_table (N : nat) (xi : list Z) (i : nat) (ys : list (list Z)) (j : nat)
    (f : nat -> nat -> Z) (h : nat -> Z) :
  (i < N)%nat -> (j + length ys <= N)%nat ->
  (forall k, (k < length ys)%nat ->
     exists d, sub_bcast xi (nth k ys []) = Some d /\ dot_row d d = h (j + k)%nat) ->
  loop2_inner xi i ys j (table N N f) =
  Some (table N N (fun a b =>
          if Nat.eqb a i && Nat.leb j b && Nat.ltb b (j + length ys) then h b else f a b)).
Proof.
  revert j f; induction ys as [|yj ys IH]; intros j f Hi Hlen Hd; cbn [loop2_inner].
  - f_equal. apply table_ext; intros a b _ _. simpl length. nat_bool_cases.
  - destruct (Hd 0%nat ltac:(simpl; lia)) as (d & Hsub & Hdot).
    simpl nth in Hsub. rewrite Hsub. cbn [bind].
    rewrite setitem2_table by exact Hi. simpl length in Hlen.
    replace (Nat.ltb j N) with true by (symmetry; apply Nat.ltb_lt; lia). cbn [bind].
    rewrite IH; [| exact Hi | lia |].
    + f_equal. apply table_ext; intros a b _ _. simpl length.
      rewrite Hdot, Nat.add_0_r. nat_bool_cases; subst; reflexivity.
    + intros k Hk. destruct (Hd (S k) ltac:(simpl; lia)) as (d' & H1 & H2).
      exists d'. split; [exact H1 | rewrite H2; f_equal; lia].
Qed.

Lemma loop2_outer_table (N M : nat) (xs : list (list Z)) (i : nat) (ys : list (list Z))
    (f : nat -> nat -> Z) (h : nat -> nat -> Z) :
  length ys = M -> (M <= N)%nat -> (i + length xs <= N)%nat ->
  (forall k b, (k < length xs)%nat -> (b < M)%nat ->
     exists d, sub_bcast (nth k xs []) (nth b ys []) = Some d /\
               dot_row d d = h (i + k)%nat b) ->
  loop2_outer xs i ys (table N N f) =
  Some (table N N (fun a b =>
          if Nat.leb i a && Nat.ltb a (i + length xs) && Nat.ltb b M then h a b
          else f a b)).
Proof.
  revert i f; induction xs as [|xi xs IH]; intros i f HM HMN Hlen Hd; cbn [loop2_outer].
  - f_equal. apply table_ext; intros a b _ _. simpl length. nat_bool_cases.
  - simpl length in Hlen.
    rewrite (loop2_inner_table N xi i ys 0 f (h i)); [| lia | lia |].
    + cbn [bind]. rewrite IH; [| exact HM | exact HMN | lia |].
      * f_equal. apply table_ext; intros a b _ _. simpl length. rewrite HM.
        nat_bool_cases; subst; reflexivity.
      * intros k b Hk Hb. destruct (Hd (S k) b ltac:(simpl; lia) Hb) as (d & H1 & H2).
        exists d. split; [exact H1 | rewrite H2; f_equal; lia].
    + intros b Hb. rewrite HM in Hb. destruct (Hd 0%nat b ltac:(simpl; lia) Hb) as (d & H1 & H2).
      exists d. split; [exact H1 | rewrite H2, Nat.add_0_r; reflexivity].
Qed.

Lemma dot_row_diff (u v : list Z) :
  dot_row (map (fun '(p, q) => p - q) (combine u v))
          (map (fun '(p, q) => p - q) (combine u v)) = sq_dist_row u v.
Proof.
  unfold dot_row, sq_dist_row, sumZ. revert v.
  induction u as [|a u IH]; intros [|b v]; cbn [combine map fold_right]; try reflexivity.
  rewrite IH. ring.
Qed.

Lemma loop2_Some (x y : ndarray) :
  wf x -> wf y -> ncols x = ncols y -> (nrows y <= nrows x)%nat ->
  euclidean_loop2 x y =
  Some (mk_ndarray (nrows x) (nrows x)
          (table (nrows x) (nrows x) (fun a b =>
             if Nat.ltb b (nrows y) then sq_dist_spec x y (ncols x) a b else 0))).
Proof.
  intros [Hlx Hrx] [Hly Hry] HD HM. unfold euclidean_loop2.
  rewrite np_zeros_table.
  rewrite (loop2_outer_table (nrows x) (nrows y) (data x) 0 (data y) _
             (fun a b => sq_dist_spec x y (ncols x) a b)); try lia.
  - cbn [bind]. do 2 f_equal. apply table_ext; intros a b Ha Hb.
    rewrite Hlx. nat_bool_cases.
  - intros k b Hk Hb. rewrite Forall_forall in Hrx, Hry.
    assert (Hk' : length (nth k (data x) []) = ncols x) by (apply Hrx, nth_In; lia).
    assert (Hb' : length (nth b (data y) []) = ncols x)
      by (rewrite HD; apply Hry, nth_In; lia).
    rewrite sub_bcast_same by congruence. eexists; split; [reflexivity|].
    rewrite dot_row_diff. unfold sq_dist_spec. symmetry.
    apply sq_dist_spec_row; assumption.
Qed.


(** ** Helpers for euclidean_loop3, euclidean_numba2 and the self-check cell *)

Lemma sub_bcast_None (a b : list Z) :
  sub_bcast a b = None <->
  (length a <> length b /\ length a <> 1 /\ length b <> 1)%nat.
Proof.
  unfold sub_bcast. destruct (Nat.eqb_spec (length a) (length b)) as [E|E].
  - split; [discriminate | lia].
  - destruct a as [|u [|u' a]], b as [|v [|v' b]]; simpl in *;
      split; try discriminate; try lia; intros _; reflexivity.
Qed.

Lemma sub_bcast_single (u : Z) (b : list Z) :
  sub_bcast [u] b = Some (map (fun v => u - v) b).
Proof. destruct b as [|v [|v' b]]; reflexivity. Qed.

Lemma numpy_self_table (x : ndarray) :
  wf x ->
  euclidean_numpy x x =
  Some (mk_ndarray (nrows x) (nrows x) (table (nrows x) (nrows x) (sq_dist_spec x x (ncols x)))).
Proof.
  intros Hx. rewrite (numpy_rows x x Hx Hx eq_refl).
  destruct Hx as [Hl Hr]. rewrite Forall_forall in Hr. do 2 f_equal.
  rewrite (map_as_table _ (data x) []), Hl. unfold table.
  apply map_ext_in; intros i Hi; apply In_seq0 in Hi.
  rewrite (map_as_table _ (data x) []), Hl.
  apply map_ext_in; intros j Hj; apply In_seq0 in Hj.
  unfold sq_dist_spec. symmetry. apply sq_dist_spec_row; apply Hr, nth_In; lia.
Qed.

(** ** Extra properties *)



(** X2: when [y] has at most [N = rows(x)] rows and the feature dimensions
    agree, [euclidean_loop2] returns an [(N, N)] matrix whose column [j] holds
    the squared distances to [y[j]] for [j < rows(y)] and stays zero for
    [j >= rows(y)]. *)
Theorem X2_loop2_zero_columns (x y : ndarray) :
  wf x -> wf y -> ncols x = ncols y -> (nrows y <= nrows x)%nat ->
  exists out, euclidean_loop2 x y = Some out /\
    nrows out = nrows x /\ ncols out = nrows x /\
    forall i j, (i < nrows x)%nat -> (j < nrows x)%nat ->
      get2 out i j = Some (if Nat.ltb j (nrows y) then sq_dist_spec x y (ncols x) i j else 0).
Proof.
  intros Hx Hy HD HM. rewrite (loop2_Some x y Hx Hy HD HM).
  eexists; split; [reflexivity|]. simpl. split; [reflexivity|]. split; [reflexivity|].
  intros i j Hi Hj. rewrite get2_table.
  apply Nat.ltb_lt in Hi, Hj. now rewrite Hi, Hj.
Qed.

Lemma X2_witness :
  exists out, euclidean_loop2 Y2r X1r = Some out /\ get2 out 1 1 = Some 0 /\
              get2 out 1 0 = Some 1.
Proof.
  assert (Hx : wf Y2r) by (split; [reflexivity | repeat constructor]).
  assert (Hy : wf X1r) by (split; [reflexivity | repeat constructor]).
  destruct (X2_loop2_zero_columns Y2r X1r Hx Hy eq_refl ltac:(simpl; lia))
    as (out & Hout & _ & _ & Hij).
  exists out. split; [exact Hout|].
  split; [rewrite Hij by (simpl; lia); reflexivity|].
  rewrite Hij by (simpl; lia). reflexivity.
Defined.

(** X3: on inputs with the same number of rows and the same feature
    dimension, [euclidean_loop2] returns exactly what [euclidean_numba1]
    returns. *)
Theorem X3_loop2_square (x y : ndarray) :
  wf x -> wf y -> ncols x = ncols y -> nrows x = nrows y ->
  euclidean_loop2 x y = euclidean_numba1 x y.
Proof.
  intros Hx Hy HD HN.
  rewrite (loop2_Some x y Hx Hy HD ltac:(lia)), (numba1_Some x y Hx Hy ltac:(lia) ltac:(lia)).
  do 2 f_equal. apply table_ext; intros a b _ Hb.
  rewrite <- HN. apply Nat.ltb_lt in Hb. now rewrite Hb.
Qed.

Lemma X3_witness : euclidean_loop2 X00_34 X00_34 = euclidean_numba1 X00_34 X00_34.
Proof.
  assert (Hx : wf X00_34) by (split; [reflexivity | repeat constructor]).
  exact (X3_loop2_square X00_34 X00_34 Hx Hx eq_refl eq_refl).
Defined.

(** X4: [euclidean_loop3] iterates over [y] in the outer comprehension, so for
    inputs of equal feature dimension it returns the entries of
    [euclidean_numpy(y, x)]: one row per row of [y], i.e. the transpose of the
    distance matrix of [(x, y)]. *)
Theorem X4_loop3_transposed (x y : ndarray) :
  wf x -> wf y -> ncols x = ncols y ->
  euclidean_loop3 x y = option_map data (euclidean_numpy y x).
Proof.
  intros Hx Hy HD. rewrite (numpy_rows y x Hy Hx (eq_sym HD)). simpl.
  destruct Hx as [_ Hrx], Hy as [_ Hry]. rewrite Forall_forall in Hrx, Hry.
  unfold euclidean_loop3. apply mapM_Some_map; intros yj Hyj.
  apply mapM_Some_map; intros xi Hxi.
  rewrite sub_bcast_same by (rewrite (Hrx xi Hxi), (Hry yj Hyj); exact HD). simpl.
  now rewrite dot_row_diff, sq_dist_row_comm.
Qed.

Lemma X4_witness :
  euclidean_loop3 X1r Y2r = option_map data (euclidean_numpy Y2r X1r) /\
  euclidean_loop3 X1r Y2r = Some [[0]; [1]].
Proof.
  assert (Hx : wf X1r) by (split; [reflexivity | repeat constructor]).
  assert (Hy : wf Y2r) by (split; [reflexivity | repeat constructor]).
  split; [exact (X4_loop3_transposed X1r Y2r Hx Hy eq_refl) | reflexivity].
Defined.

(** X5: the compiled [euclidean_numba2] has no bounds checks, so a row
    [y[j]] past the end of [y] raises nothing; its only error is the broadcast
    of [x[i] - y[j]]: it raises exactly when [x] has rows and the row lengths
    can not be broadcast together ([D_x <> D_y] and neither is 1). *)
Theorem X5_numba2_errors (memx memy : nat -> Z) (x y : ndarray) :
  Unchecked.euclidean_numba2 memx memy x y = None <->
  (0 < nrows x /\ ncols x <> ncols y /\ ncols x <> 1 /\ ncols y <> 1)%nat.
Proof.
  unfold Unchecked.euclidean_numba2.
  assert (Hb : forall o : option (list (list Z)),
             bind o (fun rows => Some (mk_ndarray (nrows x) (nrows x) rows)) = None
             <-> o = None) by (intros [o|]; simpl; split; congruence).
  rewrite Hb, mapM_None. split.
  - intros (i & Hi & Hrow). apply mapM_None in Hrow.
    destruct Hrow as (j & Hj & Hcell). apply In_seq0 in Hi.
    unfold Unchecked.cell2 in Hcell.
    destruct (sub_bcast _ _) eqn:Hs; [discriminate|].
    apply sub_bcast_None in Hs. rewrite !ugetrow_length in Hs. lia.
  - intros (HN & Hcase). exists 0%nat; split; [apply In_seq0; exact HN|].
    apply mapM_None. exists 0%nat; split; [apply In_seq0; exact HN|].
    unfold Unchecked.cell2.
    replace (sub_bcast _ _) with (@None (list Z)); [reflexivity|].
    symmetry. apply sub_bcast_None. rewrite !ugetrow_length. lia.
Qed.

Lemma X5_witness :
  Unchecked.euclidean_numba2 (fun _ => 0) (fun _ => 0) X123 Y1_2 = None /\
  Unchecked.euclidean_numba2 (fun _ => 0) (fun _ => 0) X1_1 Y1_2 <> None /\
  Unchecked.euclidean_numba2 (fun _ => 0) (fun _ => 0) X00_34 Y1_2 <> None.
Proof.
  split; [apply X5_numba2_errors; simpl; lia|].
  split; intros H; apply X5_numba2_errors in H; simpl in H; lia.
Defined.

(** X6: when [x] has a single feature, [x[i] - y[j]] in [euclidean_numba2]
    broadcasts [x[i][0]] against every feature of [y[j]], so each cell is
    [Σ_{k < D_y} (x[i][0] − y[j][k])²] for any [D_y]. *)
Theorem X6_numba2_broadcast (x y : ndarray) :
  wf x -> wf y -> ncols x = 1%nat -> (nrows x <= nrows y)%nat ->
  euclidean_numba2 x y =
  Some (mk_ndarray (nrows x) (nrows x) (table (nrows x) (nrows x) (fun i j =>
    sumZ (map (fun k => (nth 0 (nth i (data x) []) 0 - nth k (nth j (data y) []) 0) ^ 2)
              (seq 0 (ncols y)))))).
Proof.
  intros Hx Hy H1 HM. unfold euclidean_numba2, table.
  erewrite mapM_Some_map; [reflexivity|].
  intros i Hi; apply In_seq0 in Hi.
  apply mapM_Some_map. intros j Hj; apply In_seq0 in Hj.
  destruct (getrow_wf x i Hx Hi) as (xi & Hxi & Hlx).
  destruct (getrow_wf y j Hy ltac:(lia)) as (yj & Hyj & Hly).
  destruct xi as [|u [|u' xi]]; simpl in Hlx; try lia.
  unfold cell2. rewrite Hxi, Hyj. cbn [bind]. rewrite sub_bcast_single. cbn [bind].
  unfold getrow in Hxi, Hyj.
  rewrite (nth_error_nth _ _ _ Hxi), (nth_error_nth _ _ _ Hyj). simpl nth.
  rewrite map_map, (map_as_table _ yj 0), Hly. reflexivity.
Qed.

Lemma X6_witness :
  euclidean_numba2 X1_1 Y1_2 = Some (mk_ndarray 1 1 [[1]]).
Proof.
  assert (Hx : wf X1_1) by (split; [reflexivity | repeat constructor]).
  assert (Hy : wf Y1_2) by (split; [reflexivity | repeat constructor]).
  rewrite (X6_numba2_broadcast X1_1 Y1_2 Hx Hy eq_refl ltac:(simpl; lia)).
  reflexivity.
Defined.

(** X7: [euclidean_numba1] reads only the first [D_x = x.shape[1]] features of
    each row of [y]: when [y] has at least [rows(x)] rows and at least [D_x]
    features it returns the [(N, N)] matrix of squared distances over
    features [k < D_x]. *)
Theorem X7_numba1_extra_features (x y : ndarray) :
  wf x -> wf y -> (nrows x <= nrows y)%nat -> (ncols x <= ncols y)%nat ->
  exists out, euclidean_numba1 x y = Some out /\
    wf out /\ nrows out = nrows x /\ ncols out = nrows x /\
    forall i j, (i < nrows x)%nat -> (j < nrows x)%nat ->
      get2 out i j = Some (sq_dist_spec x y (ncols x) i j).
Proof.
  intros Hx Hy HM HD. rewrite (numba1_Some x y Hx Hy HM HD).
  eexists; split; [reflexivity|]. split; [apply wf_table|].
  split; [reflexivity|]. split; [reflexivity|].
  intros i j Hi Hj. rewrite get2_table.
  apply Nat.ltb_lt in Hi, Hj. now rewrite Hi, Hj.
Qed.

Lemma X7_witness :
  exists out, euclidean_numba1 X1_1 Y1_2 = Some out /\
    get2 out 0 0 = Some (sq_dist_spec X1_1 Y1_2 1 0 0).
Proof.
  assert (Hx : wf X1_1) by (split; [reflexivity | repeat constructor]).
  assert (Hy : wf Y1_2) by (split; [reflexivity | repeat constructor]).
  destruct (X7_numba1_extra_features X1_1 Y1_2 Hx Hy ltac:(simpl; lia) ltac:(simpl; lia))
    as (out & Hout & _ & _ & _ & Hij).
  exists out. split; [exact Hout | apply Hij; simpl; lia].
Defined.

(** X8: the notebook's self-check compares [euclidean_numpy(a, a)] with
    [euclidean_numba1(a, a)] and [euclidean_numba2(a, a)]; over exact
    arithmetic the three are equal for every well-formed [a], so the printed
    maximal differences are 0. *)
Theorem X8_self_check (a : ndarray) :
  wf a ->
  euclidean_numpy a a = euclidean_numba1 a a /\
  euclidean_numba2 a a = euclidean_numba1 a a.
Proof.
  intros Ha. rewrite (numba1_Some a a Ha Ha (Nat.le_refl _) (Nat.le_refl _)).
  split; [apply numpy_self_table, Ha | apply numba2_Some; auto].
Qed.

Lemma X8_witness :
  euclidean_numpy Y3_5 Y3_5 = euclidean_numba1 Y3_5 Y3_5 /\
  euclidean_numba2 Y3_5 Y3_5 = euclidean_numba1 Y3_5 Y3_5.
Proof.
  apply X8_self_check. split; [reflexivity | repeat constructor].
Defined.
